(** * GFormFetcher: the login session and the cache-backed fetch handler

    A shallow embedding of [src/server.ts].  The server keeps one Puppeteer
    browser and one page in two module-level variables, logs the page in
    when the process starts, and then answers [GET /fetch-form?url=...] from
    an in-memory [Map], falling back to the shared page on a miss.

    Puppeteer, readline and the remote site are outside the program: they
    are a [Driver], a state machine that answers every asynchronous call
    with a settled promise (resolved with a value, or rejected with an
    error).  An [async] function is a [Prog]: synchronous statements on the
    module-level variables, and [await] points where the function issues a
    call and is suspended.  A [Prog] has two readings: [run] executes it to
    completion with nothing in between, and [advance] executes it up to its
    next [await], which is what the event loop does with the handlers of
    requests and signals that overlap.

    Two things are taken from the driver as they come.  A call takes
    effect in the outside world when it is issued, and its promise is
    settled by then; the caller learns the outcome when it is resumed,
    and other handlers may have run in between.  A promise that never
    settles (a human who never types the code) is a handler that is never
    resumed; [run] is about the runs that come back.

    The earlier revision of the file kept with the sources has the same
    [fetchFormHandler], character for character; its signal handlers are
    [shutdown] without the readline interface ([shutdown_inline]). *)

From Stdlib Require Import ZArith Ascii String List Lia.
From stdpp Require Import base option list gmap strings.

Local Open Scope string_scope.
Local Open Scope Z_scope.

(** ** JavaScript values that reach the handler *)

(** A value of [req.query]: what the [qs] parser can produce for one key.
    Only case analysis is used on it, so no induction scheme is generated. *)
#[local] Unset Elimination Schemes.
Inductive QueryValue :=
| QUndefined
| QString (s : string)
| QArray (items : list QueryValue)
| QObject (fields : list (string * QueryValue)).
#[local] Set Elimination Schemes.

Inductive JsType := TyUndefined | TyString | TyObject.

Definition typeof (v : QueryValue) : JsType :=
  match v with
  | QUndefined => TyUndefined
  | QString _ => TyString
  | QArray _ | QObject _ => TyObject
  end.

Definition JsType_eqb (a b : JsType) : bool :=
  match a, b with
  | TyUndefined, TyUndefined | TyString, TyString | TyObject, TyObject => true
  | _, _ => false
  end.

(** JavaScript truthiness: [undefined] and the empty string are falsy,
    every array and object (an empty one too) is truthy. *)
Definition truthy (v : QueryValue) : bool :=
  match v with
  | QUndefined => false
  | QString EmptyString => false
  | QString (String _ _) => true
  | QArray _ | QObject _ => true
  end.

(** The string behind a value that [typeof] has narrowed to a string. *)
Definition as_string (v : QueryValue) : string :=
  match v with
  | QString s => s
  | _ => ""
  end.

Record Request := mkRequest { query : gmap string QueryValue }.

(** Property access on the query object: a missing key reads [undefined]. *)
Definition prop (q : gmap string QueryValue) (k : string) : QueryValue :=
  default QUndefined (q !! k).

(** A request whose query string is [?url=u]. *)
Definition url_request (u : string) : Request :=
  mkRequest {[ "url" := QString u ]}.

(** ** The Express response object *)

Inductive Body :=
| Text (html : string)
| JsonError (error : string).

Record Response := mkResponse { statusCode : Z; sent : option Body }.

(** The response Express hands to a handler: status 200, nothing sent. *)
Definition fresh : Response := mkResponse 200 None.

Definition res_status (code : Z) (res : Response) : Response :=
  mkResponse code (sent res).

Definition res_json (error : string) (res : Response) : Response :=
  mkResponse (statusCode res) (Some (JsonError error)).

(** [res.send(v)]; [v] is what [Map.get] returned, [undefined] sends an
    empty body. *)
Definition res_send (v : option string) (res : Response) : Response :=
  mkResponse (statusCode res) (Some (Text (default "" v))).

(** ** Errors and settled promises *)

Record Exn := mkExn { message : string }.

Inductive Settled (A : Type) :=
| Resolved (a : A)
| Rejected (e : Exn).
Arguments Resolved {A} a.
Arguments Rejected {A} e.

(** ** The Puppeteer and readline interface *)

Inductive Browser := BrowserRef (id : nat).
Inductive Page := PageRef (id : nat).
Inductive ElementHandle := ElementRef (id : nat).

(** What a closure passed to [page.evaluate] can see of the document. *)
Record Document := mkDocument { querySelector : string -> option ElementHandle }.

Inductive Call : Type -> Type :=
| Launch (headless : bool) (args : list string) : Call Browser
| NewPage (b : Browser) : Call Page
| SetDefaultNavigationTimeout (p : Page) (ms : Z) : Call unit
| Goto (p : Page) (url waitUntil : string) : Call unit
| TypeText (p : Page) (selector text : string) : Call unit
| Click (p : Page) (selector : string) : Call unit
| WaitForSelector (p : Page) (selector : string) (visible : bool)
    (timeout : option Z) : Call unit
| Evaluate (p : Page) : Call Document
| Dollar (p : Page) (selector : string) : Call (option ElementHandle)
| ElementClick (e : ElementHandle) : Call unit
| WaitForNavigation (p : Page) (waitUntil : string) : Call unit
| Content (p : Page) : Call string
| PageClose (p : Page) : Call unit
| BrowserClose (b : Browser) : Call unit
| Question (prompt : string) : Call string.

(** The outside world: each call moves it and settles with a value or an
    error. *)
Class Driver (W : Type) := exec : forall T : Type, Call T -> W -> W * Settled T.
Arguments exec {W _ T} c w.

(** ** What the process did *)

Inductive Event :=
| ECall {T : Type} (c : Call T)
| ELog (msg : string)
| EError (msg : string) (err : Exn)
| ERlClose
| EListen (port : Z)
| EExit (code : Z).

(** ** Process state: the module-level variables and the outside world *)

Record State (W : Type) := mkState {
  browser : option Browser;
  persistentPage : option Page;
  formCache : gmap string string;
  world : W;
  trace : list Event;
  listening : bool;
  exited : option Z
}.
Arguments mkState {W}.
Arguments browser {W}.
Arguments persistentPage {W}.
Arguments formCache {W}.
Arguments world {W}.
Arguments trace {W}.
Arguments listening {W}.
Arguments exited {W}.

(** The state of a process that has just been started in world [w]. *)
Definition boot {W} (w : W) : State W := mkState None None ∅ w [] false None.

(** [Map.prototype.has] and [Map.prototype.get]. *)
Definition Map_has (k : string) (m : gmap string string) : bool :=
  bool_decide (is_Some (m !! k)).
Definition Map_get (k : string) (m : gmap string string) : option string :=
  m !! k.

(** The session is usable when both module-level references are set. *)
Definition authenticated {W} (st : State W) : Prop :=
  is_Some (browser st) /\ is_Some (persistentPage st).

(** Count of [page.goto] calls in a trace: the navigation probe. *)
Definition is_goto (e : Event) : bool :=
  match e with
  | ECall (Goto _ _ _) => true
  | _ => false
  end.
Definition navigations (tr : list Event) : nat :=
  length (filter (fun e => is_goto e = true) tr).

Section Program.

Context {W : Type}.

(** ** Asynchronous programs *)

Inductive Prog (A : Type) : Type :=
| Ret (a : A)
| Throw (e : Exn)
| Act {X : Type} (f : State W -> State W * X) (k : X -> Prog A)
| Await {T : Type} (c : Call T) (k : Settled T -> Prog A).
Arguments Ret {A} a.
Arguments Throw {A} e.
Arguments Act {A X} f k.
Arguments Await {A T} c k.

Fixpoint bind {A B} (m : Prog A) (k : A -> Prog B) : Prog B :=
  match m with
  | Ret a => k a
  | Throw e => Throw e
  | Act f k' => Act f (fun x => bind (k' x) k)
  | Await c k' => Await c (fun r => bind (k' r) k)
  end.

Fixpoint try_catch {A} (body : Prog A) (handler : Exn -> Prog A) : Prog A :=
  match body with
  | Ret a => Ret a
  | Throw e => handler e
  | Act f k => Act f (fun x => try_catch (k x) handler)
  | Await c k => Await c (fun r => try_catch (k r) handler)
  end.

Notation "x <- m ;; k" := (bind m (fun x => k))
  (at level 100, m at next level, k at level 200, right associativity).
Notation "m ;; k" := (bind m (fun _ => k))
  (at level 100, k at level 200, right associativity).

(** [await obj.method(...)]: issue the call, be suspended, and resume with
    the value or the exception of the promise. *)
Definition settle {T} (r : Settled T) : Prog T :=
  match r with
  | Resolved a => Ret a
  | Rejected e => Throw e
  end.

Definition call {T} (c : Call T) : Prog T := Await c settle.

Definition gets {A} (f : State W -> A) : Prog A :=
  Act (fun st => (st, f st)) Ret.

Definition emit (e : Event) : Prog unit :=
  Act (fun st =>
         (mkState (browser st) (persistentPage st) (formCache st) (world st)
            (trace st ++ [e]) (listening st) (exited st), tt)) Ret.

Definition console_log (msg : string) : Prog unit := emit (ELog msg).
Definition console_error (msg : string) (err : Exn) : Prog unit :=
  emit (EError msg err).

Definition set_browser (b : option Browser) : Prog unit :=
  Act (fun st =>
         (mkState b (persistentPage st) (formCache st) (world st) (trace st)
            (listening st) (exited st), tt)) Ret.

Definition set_persistentPage (p : option Page) : Prog unit :=
  Act (fun st =>
         (mkState (browser st) p (formCache st) (world st) (trace st)
            (listening st) (exited st), tt)) Ret.

Definition formCache_set (k v : string) : Prog unit :=
  Act (fun st =>
         (mkState (browser st) (persistentPage st) (<[k := v]> (formCache st))
            (world st) (trace st) (listening st) (exited st), tt)) Ret.

(** [app.listen(port, callback)].  [EListen] records the call.  The port
    is taken to be free: the transport then accepts connections and the
    callback logs the address.  A port already in use (an [error] event
    with no listener, which ends the process) has no counterpart here, so
    what follows the call in the trace is the free-port run only. *)
Definition app_listen (port : Z) : Prog unit :=
  Act (fun st =>
         (mkState (browser st) (persistentPage st) (formCache st) (world st)
            (trace st ++ [EListen port]) true (exited st), tt)) Ret ;;
  console_log "Server running on http://localhost:3000".

(** [process.exit(code)]; it is the last statement wherever the source
    calls it, and an exited process runs nothing further (see [step]). *)
Definition process_exit (code : Z) : Prog unit :=
  Act (fun st =>
         (mkState (browser st) (persistentPage st) (formCache st) (world st)
            (trace st ++ [EExit code]) (listening st) (Some code), tt)) Ret.

Definition rl_close : Prog unit := emit ERlClose.

(** A method call on the module-level [persistentPage], which the source
    reads again at every use; on [null] the call is a [TypeError]. *)
Definition null_deref : Exn := mkExn "TypeError: Cannot read properties of null".

Definition on_page {T} (method : Page -> Call T) : Prog T :=
  p <- gets persistentPage ;;
  match p with
  | Some page => call (method page)
  | None => Throw null_deref
  end.

Definition on_browser {T} (method : Browser -> Call T) : Prog T :=
  b <- gets browser ;;
  match b with
  | Some br => call (method br)
  | None => Throw null_deref
  end.

(** [if (persistentPage) await persistentPage.close();] and its twin for
    the browser: no call, and no suspension, when the reference is null. *)
Definition close_page_if_held : Prog unit :=
  p <- gets persistentPage ;;
  match p with
  | Some page => call (PageClose page)
  | None => Ret tt
  end.

Definition close_browser_if_held : Prog unit :=
  b <- gets browser ;;
  match b with
  | Some br => call (BrowserClose br)
  | None => Ret tt
  end.

(** ** [initializeBrowser] (lines 43-104) *)

Record Env := mkEnv { GOOGLE_EMAIL : option string; GOOGLE_PASSWORD : option string }.

(** [process.env.X || ""]. *)
Definition or_empty (v : option string) : string := default "" v.

Definition dq : string := String (ascii_of_nat 34) EmptyString.

Definition gmailOptionSelector : string :=
  "div[data-challengetype=" ++ dq ++ "12" ++ dq ++ "]".

Definition codeInputSelector : string :=
  "input[name=" ++ dq ++ "totpPin" ++ dq ++ "], input[type=" ++ dq ++ "tel" ++ dq ++ "]".

Definition promptForCode : Prog string :=
  call (Question "Enter the verification code sent to your Gmail: ").

(** The closure given to [page.evaluate] at line 64. *)
Definition isVerificationPrompt (document : Document) : bool :=
  bool_decide (is_Some (querySelector document "#challenge"))
  || bool_decide (is_Some (querySelector document ".d2CFce")).

Definition launch_args : list string :=
  ["--no-sandbox"; "--disable-setuid-sandbox"; "--disable-dev-shm-usage"].

(** Lines 69-87: the verification branch. *)
Definition verification_branch : Prog unit :=
  console_log "Verification prompt detected. Attempting Gmail code verification..." ;;
  gmailOption <- on_page (fun p => Dollar p gmailOptionSelector) ;;
  match gmailOption with
  | Some option =>
      call (ElementClick option) ;;
      on_page (fun p => WaitForNavigation p "domcontentloaded") ;;
      console_log "Selected Gmail verification. Check your email for the code."
  | None => Throw (mkExn "Gmail verification option not found.")
  end ;;
  on_page (fun p => WaitForSelector p codeInputSelector true None) ;;
  code <- promptForCode ;;
  on_page (fun p => TypeText p codeInputSelector code) ;;
  on_page (fun p => Click p "#totpNext, #submitChallenge") ;;
  on_page (fun p => WaitForNavigation p "domcontentloaded").

(** Lines 90-92: the password branch. *)
Definition password_branch (env : Env) : Prog unit :=
  on_page (fun p => TypeText p "input[name='Passwd']" (or_empty (GOOGLE_PASSWORD env))) ;;
  on_page (fun p => Click p "#passwordNext") ;;
  on_page (fun p => WaitForNavigation p "domcontentloaded").

(** Lines 45-61: launch, open the page, submit the account identifier and
    wait for the next prompt. *)
Definition submit_identifier (env : Env) : Prog unit :=
  console_log "Initializing browser and logging in..." ;;
  b <- call (Launch true launch_args) ;;
  set_browser (Some b) ;;
  p <- on_browser NewPage ;;
  set_persistentPage (Some p) ;;
  on_page (fun p => SetDefaultNavigationTimeout p 10000) ;;
  on_page (fun p => Goto p "https://accounts.google.com/" "domcontentloaded") ;;
  on_page (fun p => TypeText p "#identifierId" (or_empty (GOOGLE_EMAIL env))) ;;
  on_page (fun p => Click p "#identifierNext") ;;
  on_page (fun p => WaitForSelector p "#passwordNext, #totpPin, #challenge" true (Some 15000)).

(** Lines 45-95: the body of the [try]. *)
Definition login (env : Env) : Prog unit :=
  submit_identifier env ;;
  document <- on_page Evaluate ;;
  (if isVerificationPrompt document
   then verification_branch
   else password_branch env) ;;
  console_log "Logged in successfully".

(** Lines 96-103: the [catch]. *)
Definition release (err : Exn) : Prog unit :=
  console_error "Failed to initialize browser:" err ;;
  close_page_if_held ;;
  close_browser_if_held ;;
  set_browser None ;;
  set_persistentPage None ;;
  Throw err.

Definition initializeBrowser (env : Env) : Prog unit :=
  try_catch (login env) release.

(** ** [fetchFormHandler] (lines 107-138) *)

Definition invalid_url : string := "URL is required and must be a string".
Definition not_initialized : string := "Browser not initialized".
Definition fetch_failed : string := "Failed to fetch form".

Definition fetch_catch (res : Response) (err : Exn) : Prog Response :=
  console_error "Error fetching form:" err ;;
  Ret (res_json fetch_failed (res_status 500 res)).

Definition fetchFormHandler (req : Request) (res : Response) : Prog Response :=
  let url := prop (query req) "url" in
  if negb (truthy url) || negb (JsType_eqb (typeof url) TyString) then
    Ret (res_json invalid_url (res_status 400 res))
  else
    let url := as_string url in
    b <- gets browser ;;
    p <- gets persistentPage ;;
    if negb (bool_decide (is_Some b)) || negb (bool_decide (is_Some p)) then
      Ret (res_json not_initialized (res_status 500 res))
    else
      try_catch
        (cache <- gets formCache ;;
         if Map_has url cache then
           console_log ("Cache hit for " ++ url) ;;
           Ret (res_send (Map_get url cache) res)
         else
           on_page (fun p => Goto p url "domcontentloaded") ;;
           html <- on_page Content ;;
           formCache_set url html ;;
           console_log ("Fetched and cached " ++ url) ;;
           Ret (res_send (Some html) res))
        (fetch_catch res).

(** ** [startServer] and [shutdown] (lines 143-157) *)

Definition port : Z := 3000.

Definition startServer (env : Env) : Prog unit :=
  initializeBrowser env ;;
  app_listen port.

Definition shutdown : Prog unit :=
  console_log "Shutting down server..." ;;
  close_page_if_held ;;
  close_browser_if_held ;;
  rl_close ;;
  process_exit 0.

(** The handlers the earlier revision registers for SIGINT and SIGTERM:
    the same steps, with no readline interface to close. *)
Definition shutdown_inline : Prog unit :=
  console_log "Shutting down server..." ;;
  close_page_if_held ;;
  close_browser_if_held ;;
  process_exit 0.

(** Lines 163-166: what the module does with [startServer()]'s promise. *)
Definition startup_failed (err : Exn) : Prog unit :=
  console_error "Server failed to start:" err ;;
  process_exit 1.

Definition main (env : Env) : Prog unit :=
  try_catch (startServer env) startup_failed.

(** ** Semantics *)

Context `{!Driver W}.

(** Issue a call: the driver moves and the call is recorded.  The promise
    is settled by the driver there and then; the caller sees it when it is
    resumed. *)
Definition issue {T} (c : Call T) (st : State W) : State W * Settled T :=
  let (w', r) := exec c (world st) in
  (mkState (browser st) (persistentPage st) (formCache st) w'
     (trace st ++ [ECall c]) (listening st) (exited st), r).

(** Run to completion, nothing else running in between. *)
Fixpoint run {A} (t : Prog A) (st : State W) : State W * Settled A :=
  match t with
  | Ret a => (st, Resolved a)
  | Throw e => (st, Rejected e)
  | Act f k => let (st', x) := f st in run (k x) st'
  | Await c k => let (st', r) := issue c st in run (k r) st'
  end.

(** Run up to and including the next [await]: the synchronous statements,
    then the call; what is left resumes with the settled promise. *)
Fixpoint advance {A} (t : Prog A) (st : State W) : State W * Prog A :=
  match t with
  | Ret a => (st, Ret a)
  | Throw e => (st, Throw e)
  | Act f k => let (st', x) := f st in advance (k x) st'
  | Await c k => let (st', r) := issue c st in (st', k r)
  end.

(** ** The handlers at their [await] points

    What is left of [fetchFormHandler] while it is suspended at line 129
    and at line 130, and of [shutdown] at lines 153 and 154, holding the
    promise it waits for. *)

Definition at_goto (url : string) (res : Response) (r : Settled unit) : Prog Response :=
  try_catch
    (settle r ;;
     html <- on_page Content ;;
     formCache_set url html ;;
     console_log ("Fetched and cached " ++ url) ;;
     Ret (res_send (Some html) res))
    (fetch_catch res).

Definition at_content (url : string) (res : Response) (r : Settled string) : Prog Response :=
  try_catch
    (html <- settle r ;;
     formCache_set url html ;;
     console_log ("Fetched and cached " ++ url) ;;
     Ret (res_send (Some html) res))
    (fetch_catch res).

Definition at_page_close (r : Settled unit) : Prog unit :=
  settle r ;;
  close_browser_if_held ;;
  rl_close ;;
  process_exit 0.

Definition at_browser_close (r : Settled unit) : Prog unit :=
  settle r ;;
  rl_close ;;
  process_exit 0.

(** ** The event loop *)

Inductive Task :=
| Fetch (t : Prog Response)
| Shutdown (t : Prog unit).

Record Proc := mkProc { state : State W; tasks : list Task }.

(** What can happen next: a request arrives on the transport, a
    termination signal is delivered, or a handler that is waiting gets
    its turn. *)
Inductive Action :=
| Arrive (req : Request)
| Signal
| Resume (i : nat).

Definition resume (tk : Task) (st : State W) : State W * Task :=
  match tk with
  | Fetch t => let (st', t') := advance t st in (st', Fetch t')
  | Shutdown t => let (st', t') := advance t st in (st', Shutdown t')
  end.

Definition step (p : Proc) (a : Action) : Proc :=
  match exited (state p) with
  | Some _ => p
  | None =>
      match a with
      | Arrive req =>
          if listening (state p)
          then mkProc (state p) (tasks p ++ [Fetch (fetchFormHandler req fresh)])
          else p
      | Signal => mkProc (state p) (tasks p ++ [Shutdown shutdown])
      | Resume i =>
          match tasks p !! i with
          | Some tk =>
              let (st', tk') := resume tk (state p) in
              mkProc st' (<[i := tk']> (tasks p))
          | None => p
          end
      end
  end.

Definition schedule (p : Proc) (acts : list Action) : Proc :=
  fold_left step acts p.

(** The response a fetch task has produced, once it has finished. *)
Definition response_of (tk : Task) : option Response :=
  match tk with
  | Fetch (Ret res) => Some res
  | _ => None
  end.

(** Requests served one after the other, each handler run to completion
    before the next request is looked at. *)
Fixpoint serve (reqs : list Request) (st : State W) : State W * list (Settled Response) :=
  match reqs with
  | [] => (st, [])
  | req :: rest =>
      let (st1, r) := run (fetchFormHandler req fresh) st in
      let (st2, rs) := serve rest st1 in
      (st2, r :: rs)
  end.

End Program.

Arguments Prog : clear implicits.
Arguments Ret {W A} a.
Arguments Throw {W A} e.
Arguments Act {W A X} f k.
Arguments Await {W A T} c k.
Arguments Task : clear implicits.
Arguments Proc : clear implicits.

Notation "x <- m ;; k" := (bind m (fun x => k))
  (at level 100, m at next level, k at level 200, right associativity).
Notation "m ;; k" := (bind m (fun _ => k))
  (at level 100, k at level 200, right associativity).

(** ** The earlier revision of the file

    The revision kept beside [server.ts] logs in with the password alone:
    its [try] has no detector and no verification branch, and waits for
    the password prompt with Puppeteer's default timeout.  Its [catch],
    its [startServer] and the module-level code are the same text, and
    its signal handlers are [shutdown_inline]. *)

Module Earlier.
Section Program.

Context {W : Type}.

(** Lines 29-48 of the earlier revision: the body of the [try]. *)
Definition login (env : Env) : Prog W unit :=
  console_log "Initializing browser and logging in..." ;;
  b <- call (Launch true launch_args) ;;
  set_browser (Some b) ;;
  p <- on_browser NewPage ;;
  set_persistentPage (Some p) ;;
  on_page (fun p => SetDefaultNavigationTimeout p 10000) ;;
  on_page (fun p => Goto p "https://accounts.google.com/" "domcontentloaded") ;;
  on_page (fun p => TypeText p "#identifierId" (or_empty (GOOGLE_EMAIL env))) ;;
  on_page (fun p => Click p "#identifierNext") ;;
  on_page (fun p => WaitForSelector p "#passwordNext" true None) ;;
  on_page (fun p => TypeText p "input[name='Passwd']" (or_empty (GOOGLE_PASSWORD env))) ;;
  on_page (fun p => Click p "#passwordNext") ;;
  on_page (fun p => WaitForNavigation p "domcontentloaded") ;;
  console_log "Logged in successfully".

Definition initializeBrowser (env : Env) : Prog W unit :=
  try_catch (login env) release.

Definition startServer (env : Env) : Prog W unit :=
  initializeBrowser env ;;
  app_listen port.

Definition main (env : Env) : Prog W unit :=
  try_catch (startServer env) startup_failed.

End Program.
End Earlier.

(** ** A stub driver

    A scripted browser for concrete runs.  Its script says which URLs
    cannot be reached or captured, whether the login shows the
    verification prompt and offers the email-code option, and whether the
    connection is lost so that [close] rejects.  Its state is the URL of
    the current document and the number of navigations so far; a document
    is serialised as its URL followed by one mark per navigation, so a
    page differs on every load. *)

Record Script := mkScript {
  unreachable : list string;
  uncapturable : list string;
  challenge : bool;
  email_option : bool;
  close_fails : bool
}.

Record Browsing := mkBrowsing { location : string; loads : nat }.

Fixpoint marks (n : nat) : string :=
  match n with
  | O => ""
  | S n' => "*" ++ marks n'
  end.

Definition render (w : Browsing) : string :=
  "<html>" ++ location w ++ marks (loads w) ++ "</html>".

Definition listed (u : string) (l : list string) : bool :=
  existsb (String.eqb u) l.

Definition navigate (u : string) (w : Browsing) : Browsing :=
  mkBrowsing u (S (loads w)).

Definition stub_document (s : Script) : Document :=
  mkDocument (fun selector =>
    if challenge s && String.eqb selector "#challenge"
    then Some (ElementRef 1) else None).

Definition stub_close (s : Script) : Settled unit :=
  if close_fails s
  then Rejected (mkExn "Protocol error: Connection closed.")
  else Resolved tt.

Definition stub_exec (s : Script) (T : Type) (c : Call T) (w : Browsing)
    : Browsing * Settled T :=
  match c in Call T return Browsing * Settled T with
  | Launch _ _ => (w, Resolved (BrowserRef 0))
  | NewPage _ => (w, Resolved (PageRef 0))
  | Goto _ u _ =>
      if listed u (unreachable s)
      then (w, Rejected (mkExn "net::ERR_CONNECTION_REFUSED"))
      else (navigate u w, Resolved tt)
  | Content _ =>
      if listed (location w) (uncapturable s)
      then (w, Rejected (mkExn "Execution context was destroyed"))
      else (w, Resolved (render w))
  | Evaluate _ => (w, Resolved (stub_document s))
  | Dollar _ selector =>
      if email_option s && String.eqb selector gmailOptionSelector
      then (w, Resolved (Some (ElementRef 2)))
      else (w, Resolved None)
  | Question _ => (w, Resolved "123456")
  | PageClose _ => (w, stub_close s)
  | BrowserClose _ => (w, stub_close s)
  | SetDefaultNavigationTimeout _ _ => (w, Resolved tt)
  | TypeText _ _ _ => (w, Resolved tt)
  | Click _ _ => (w, Resolved tt)
  | WaitForSelector _ _ _ _ => (w, Resolved tt)
  | ElementClick _ => (w, Resolved tt)
  | WaitForNavigation _ _ => (w, Resolved tt)
  end.

Definition stub (s : Script) : Driver Browsing := stub_exec s.

Definition blank : Browsing := mkBrowsing "about:blank" 0.

Definition stub_env : Env := mkEnv (Some "robot@example.com") (Some "hunter2").

Definition form_url : string := "https://example.com/form".
Definition other_url : string := "https://example.com/other".
Definition down_url : string := "https://down.example/form".

(** A healthy site that logs in with the password alone; one URL is
    down. *)
Definition healthy : Script := mkScript [down_url] [] false false false.

(** The same site asking for the emailed code. *)
Definition challenged : Script := mkScript [] [] true true false.

(** The identity provider cannot be reached; the browser is fine. *)
Definition offline : Script :=
  mkScript ["https://accounts.google.com/"] [] false false false.

(** The identity provider cannot be reached because the browser has lost
    its connection: [close] rejects too. *)
Definition disconnected : Script :=
  mkScript ["https://accounts.google.com/"] [] false false true.

(** A browser that logs in and then cannot be closed. *)
Definition stuck : Script := mkScript [] [] false false true.

(** The drivers of the five scripts. *)
Definition healthy_stub : Driver Browsing := stub healthy.
Definition challenged_stub : Driver Browsing := stub challenged.
Definition offline_stub : Driver Browsing := stub offline.
Definition disconnected_stub : Driver Browsing := stub disconnected.
Definition stuck_stub : Driver Browsing := stub stuck.

(** The process once [main] has run against a script. *)
Definition started (s : Script) : State Browsing :=
  fst (run (Driver0 := stub s) (main stub_env) (boot blank)).

(** Logged in on the healthy site and listening. *)
Definition served : State Browsing := started healthy.

(** The healthy process with two requests accepted and neither begun. *)
Definition queued : Proc Browsing :=
  mkProc served [Fetch (fetchFormHandler (url_request other_url) fresh);
                 Fetch (fetchFormHandler (url_request form_url) fresh)].

(** The healthy process after it has fetched the form once. *)
Definition fetched : State Browsing :=
  fst (run (Driver0 := stub healthy) (fetchFormHandler (url_request form_url) fresh) served).

(** Where the [try] of [initializeBrowser] stops against a script, and
    where [initializeBrowser] leaves the process. *)
Definition login_stopped (s : Script) : State Browsing :=
  fst (run (Driver0 := stub s) (login stub_env) (boot blank)).

Definition initialized (s : Script) : State Browsing :=
  fst (run (Driver0 := stub s) (initializeBrowser stub_env) (boot blank)).

(** No session, and yet the form in the cache. *)
Definition signed_out : State Browsing :=
  mkState None None {[ form_url := "<html>cached</html>" ]} blank [] true None.

(** The site asks for a code and offers no email option. *)
Definition optionless : Script := mkScript [] [] true false false.
Definition optionless_stub : Driver Browsing := stub optionless.

(** Where the login stands against a script once the identifier is
    submitted, and once the detector has run. *)
Definition identified (s : Script) : State Browsing :=
  fst (run (Driver0 := stub s) (submit_identifier stub_env) (boot blank)).

Definition prompted (s : Script) : State Browsing :=
  fst (run (Driver0 := stub s) (on_page Evaluate) (identified s)).

(** Two more drivers for the first steps of the login: one on a machine
    where no browser can be launched, one whose browser opens no page. *)
Definition no_browser_exec (T : Type) (c : Call T) (w : unit) : unit * Settled T :=
  (w, Rejected (mkExn "Failed to launch the browser process")).

Definition no_page_exec (T : Type) (c : Call T) (w : unit) : unit * Settled T :=
  match c in Call T return unit * Settled T with
  | Launch _ _ => (w, Resolved (BrowserRef 0))
  | BrowserClose _ => (w, Resolved tt)
  | _ => (w, Rejected (mkExn "Protocol error (Target.createTarget)"))
  end.

Definition no_browser_stub : Driver unit := no_browser_exec.
Definition no_page_stub : Driver unit := no_page_exec.

(** ** Observations used in the statements *)

(** The four answers of the endpoint. *)
Definition bad_request : Response := mkResponse 400 (Some (JsonError invalid_url)).
Definition no_browser : Response := mkResponse 500 (Some (JsonError not_initialized)).
Definition fetch_error : Response := mkResponse 500 (Some (JsonError fetch_failed)).
Definition ok_html (html : string) : Response := mkResponse 200 (Some (Text html)).

(** Events that tell the branches and the failure path apart. *)
Definition submits_password (e : Event) : bool :=
  match e with
  | ECall (Click _ selector) => String.eqb selector "#passwordNext"
  | _ => false
  end.

Definition submits_code (e : Event) : bool :=
  match e with
  | ECall (Click _ selector) => String.eqb selector "#totpNext, #submitChallenge"
  | _ => false
  end.

Definition asks_human (e : Event) : bool :=
  match e with
  | ECall (Question _) => true
  | _ => false
  end.

Definition is_failure (e : Event) : bool :=
  match e with
  | EError _ _ => true
  | _ => false
  end.

Definition reports_login (e : Event) : bool :=
  match e with
  | ELog msg => String.eqb msg "Logged in successfully"
  | _ => false
  end.

(** A call of [app.listen]. *)
Definition is_listen (e : Event) : bool :=
  match e with
  | EListen _ => true
  | _ => false
  end.

Section Observations.

Context {W : Type} `{!Driver W}.

Implicit Types (st : State W).

(** Nothing a fetch handler does touches the session references, the
    transport or the liveness of the process. *)
Definition same_process st st' : Prop :=
  exited st' = exited st /\ listening st' = listening st /\
  browser st' = browser st /\ persistentPage st' = persistentPage st.

(** The transport and the liveness of the process. *)
Definition same_transport st st' : Prop :=
  listening st' = listening st /\ exited st' = exited st.

(** The trace only grows, and by lines that do not report a login. *)
Definition no_login_report st st' : Prop :=
  exists new, trace st' = (trace st ++ new)%list /\ existsb reports_login new = false.

(** The trace only grows, and by events other than a call of
    [app.listen]. *)
Definition no_listen_call st st' : Prop :=
  exists new, trace st' = (trace st ++ new)%list /\ existsb is_listen new = false.

(** A program respects a relation on states when each of its synchronous
    statements does; [await]s are covered by [issue], which only moves
    the outside world and extends the trace. *)
Inductive respects (R : State W -> State W -> Prop) {A} : Prog W A -> Prop :=
| respects_Ret a : respects R (Ret a)
| respects_Throw e : respects R (Throw e)
| respects_Act X (f : State W -> State W * X) k :
    (forall st, R st (fst (f st))) ->
    (forall x, respects R (k x)) ->
    respects R (Act f k)
| respects_Await T (c : Call T) k :
    (forall r, respects R (k r)) ->
    respects R (Await c k).

(** The two release statements shared by the [catch] of
    [initializeBrowser] and by [shutdown]: which calls they make in a
    state, where they leave the outside world, and whether the calls
    resolve. *)
Definition held_closes st : list Event :=
  match persistentPage st with
  | Some page => [ECall (PageClose page)]
  | None => []
  end ++
  match browser st with
  | Some br => [ECall (BrowserClose br)]
  | None => []
  end.

Definition after_page_close st : W :=
  match persistentPage st with
  | Some page => fst (exec (PageClose page) (world st))
  | None => world st
  end.

Definition after_release st : W :=
  match browser st with
  | Some br => fst (exec (BrowserClose br) (after_page_close st))
  | None => after_page_close st
  end.

Definition release_resolves st : Prop :=
  (forall page, persistentPage st = Some page ->
     snd (exec (PageClose page) (world st)) = Resolved tt) /\
  (forall br, browser st = Some br ->
     snd (exec (BrowserClose br) (after_page_close st)) = Resolved tt).

(** Where the module-level code leaves a process started in world [w]. *)
Definition startup (env : Env) (w : W) : State W :=
  fst (run (main env) (boot w)).

(** The state [shutdown] leaves when its release calls resolve. *)
Definition shut_down st : State W :=
  mkState (browser st) (persistentPage st) (formCache st) (after_release st)
    (trace st ++ ELog "Shutting down server..." :: held_closes st ++ [ERlClose; EExit 0])
    (listening st) (Some 0).

(** The calls and log lines of [login], in order: up to the detector,
    then one branch. *)
Definition preamble (env : Env) (b : Browser) (p : Page) : list Event :=
  [ ELog "Initializing browser and logging in...";
    ECall (Launch true launch_args);
    ECall (NewPage b);
    ECall (SetDefaultNavigationTimeout p 10000);
    ECall (Goto p "https://accounts.google.com/" "domcontentloaded");
    ECall (TypeText p "#identifierId" (or_empty (GOOGLE_EMAIL env)));
    ECall (Click p "#identifierNext");
    ECall (WaitForSelector p "#passwordNext, #totpPin, #challenge" true (Some 15000));
    ECall (Evaluate p) ].

Definition password_events (env : Env) (p : Page) : list Event :=
  [ ECall (TypeText p "input[name='Passwd']" (or_empty (GOOGLE_PASSWORD env)));
    ECall (Click p "#passwordNext");
    ECall (WaitForNavigation p "domcontentloaded") ].

Definition challenge_events (p : Page) (option : ElementHandle) (code : string) : list Event :=
  [ ELog "Verification prompt detected. Attempting Gmail code verification...";
    ECall (Dollar p gmailOptionSelector);
    ECall (ElementClick option);
    ECall (WaitForNavigation p "domcontentloaded");
    ELog "Selected Gmail verification. Check your email for the code.";
    ECall (WaitForSelector p codeInputSelector true None);
    ECall (Question "Enter the verification code sent to your Gmail: ");
    ECall (TypeText p codeInputSelector code);
    ECall (Click p "#totpNext, #submitChallenge");
    ECall (WaitForNavigation p "domcontentloaded") ].

(** Where a handler of the pool can be: not started, suspended at one of
    its [await]s holding the promise it waits for, or finished.  [P]
    constrains the URLs of the fetches that are past their cache check,
    [Q] the promises the shutdown handlers hold. *)
Inductive fetch_phase (P : string -> Prop) : Prog W Response -> Prop :=
| phase_entered req : fetch_phase P (fetchFormHandler req fresh)
| phase_at_goto u r : P u -> fetch_phase P (at_goto u fresh r)
| phase_at_content u r : P u -> fetch_phase P (at_content u fresh r)
| phase_answered res : fetch_phase P (Ret res).

Inductive shutdown_phase (Q : Settled unit -> Prop) : Prog W unit -> Prop :=
| phase_signalled : shutdown_phase Q shutdown
| phase_at_page_close r : Q r -> shutdown_phase Q (at_page_close r)
| phase_at_browser_close r : Q r -> shutdown_phase Q (at_browser_close r)
| phase_exited : shutdown_phase Q (Ret tt)
| phase_rejected e : Q (Rejected e) -> shutdown_phase Q (Throw e).

Definition task_phase (P : string -> Prop) (Q : Settled unit -> Prop)
    (tk : Task W) : Prop :=
  match tk with
  | Fetch t => fetch_phase P t
  | Shutdown t => shutdown_phase Q t
  end.

(** What [shutdown] leaves alone: everything but the outside world, the
    trace and the exit code. *)
Definition same_session st st' : Prop :=
  browser st' = browser st /\ persistentPage st' = persistentPage st /\
  formCache st' = formCache st /\ listening st' = listening st.

(** A state with one more line in its trace. *)
Definition logged (e : Event) st : State W :=
  mkState (browser st) (persistentPage st) (formCache st) (world st)
    (trace st ++ [e]) (listening st) (exited st).

(** No fetch of [u] in the pool is past its cache check: those that are
    suspended at [goto] or at [content] are fetches of other URLs. *)
Definition quiet_on (u : string) (pool : list (Task W)) : Prop :=
  Forall (task_phase (fun u' => u' <> u) (fun _ => True)) pool.

(** The cache holds [html] under [u], the session is authenticated, and
    no fetch of [u] is past its cache check in the pool. *)
Definition settled_on (u html : string) (pr : Proc W) : Prop :=
  formCache (state pr) !! u = Some html /\
  authenticated (state pr) /\
  quiet_on u (tasks pr).

(** No handler of the pool has been rejected or holds a rejected promise
    of [close], and the process has not exited with another code than 0. *)
Definition closing_cleanly (pr : Proc W) : Prop :=
  (exited (state pr) = None \/ exited (state pr) = Some 0) /\
  Forall (task_phase (fun _ => True) (fun r => r = Resolved tt)) (tasks pr).

(** Every [close] the driver is asked for resolves, in every state of the
    outside world. *)
Definition closes_resolve : Prop :=
  (forall w page, snd (exec (PageClose page) w) = Resolved tt) /\
  (forall w br, snd (exec (BrowserClose br) w) = Resolved tt).

End Observations.

(** ** Observations on the rest of the code *)

Section Outcomes.

Context {W : Type} `{!Driver W}.

Implicit Types (st : State W) (req : Request).

(** The request carries a [url] that passes the test at line 110. *)
Definition usable_url (req : Request) : Prop :=
  exists u, query req !! "url" = Some (QString u) /\ u <> "".

(** The six ways through [fetchFormHandler], as the state it leaves and
    the response it sends: rejected by the validation, rejected by the
    guard, answered from the cache, failed at [goto], failed at
    [content], and fetched. *)
Inductive handled (req : Request) (st : State W) : State W -> Response -> Prop :=
| handled_invalid :
    ~ usable_url req ->
    handled req st st bad_request
| handled_unready u :
    query req !! "url" = Some (QString u) -> u <> "" ->
    ~ authenticated st ->
    handled req st st no_browser
| handled_hit u html :
    query req !! "url" = Some (QString u) -> u <> "" ->
    authenticated st ->
    formCache st !! u = Some html ->
    handled req st (logged (ELog ("Cache hit for " ++ u)) st) (ok_html html)
| handled_unreachable u b p w1 e :
    query req !! "url" = Some (QString u) -> u <> "" ->
    browser st = Some b -> persistentPage st = Some p ->
    formCache st !! u = None ->
    exec (Goto p u "domcontentloaded") (world st) = (w1, Rejected e) ->
    handled req st
      (mkState (browser st) (persistentPage st) (formCache st) w1
         (trace st ++ [ECall (Goto p u "domcontentloaded");
                       EError "Error fetching form:" e])
         (listening st) (exited st))
      fetch_error
| handled_uncaptured u b p w1 w2 e :
    query req !! "url" = Some (QString u) -> u <> "" ->
    browser st = Some b -> persistentPage st = Some p ->
    formCache st !! u = None ->
    exec (Goto p u "domcontentloaded") (world st) = (w1, Resolved tt) ->
    exec (Content p) w1 = (w2, Rejected e) ->
    handled req st
      (mkState (browser st) (persistentPage st) (formCache st) w2
         (trace st ++ [ECall (Goto p u "domcontentloaded"); ECall (Content p);
                       EError "Error fetching form:" e])
         (listening st) (exited st))
      fetch_error
| handled_fetched u b p w1 w2 html :
    query req !! "url" = Some (QString u) -> u <> "" ->
    browser st = Some b -> persistentPage st = Some p ->
    formCache st !! u = None ->
    exec (Goto p u "domcontentloaded") (world st) = (w1, Resolved tt) ->
    exec (Content p) w1 = (w2, Resolved html) ->
    handled req st
      (mkState (browser st) (persistentPage st) (<[u := html]> (formCache st)) w2
         (trace st ++ [ECall (Goto p u "domcontentloaded"); ECall (Content p);
                       ELog ("Fetched and cached " ++ u)])
         (listening st) (exited st))
      (ok_html html).

(** The request is one the handler has to go to the page for. *)
Definition misses (req : Request) st : Prop :=
  exists u, query req !! "url" = Some (QString u) /\ u <> "" /\
            authenticated st /\ formCache st !! u = None.

(** What the login and its [catch] leave alone. *)
Definition same_serving st st' : Prop :=
  formCache st' = formCache st /\ listening st' = listening st /\
  exited st' = exited st.

(** The calls and log lines of the earlier revision's login, in order. *)
Definition earlier_events (env : Env) (b : Browser) (p : Page) : list Event :=
  [ ELog "Initializing browser and logging in...";
    ECall (Launch true launch_args);
    ECall (NewPage b);
    ECall (SetDefaultNavigationTimeout p 10000);
    ECall (Goto p "https://accounts.google.com/" "domcontentloaded");
    ECall (TypeText p "#identifierId" (or_empty (GOOGLE_EMAIL env)));
    ECall (Click p "#identifierNext");
    ECall (WaitForSelector p "#passwordNext" true None);
    ECall (TypeText p "input[name='Passwd']" (or_empty (GOOGLE_PASSWORD env)));
    ECall (Click p "#passwordNext");
    ECall (WaitForNavigation p "domcontentloaded");
    ELog "Logged in successfully" ].

(** Every handler of the pool is in one of its phases, whatever it
    holds. *)
Definition well_formed (pool : list (Task W)) : Prop :=
  Forall (task_phase (fun _ => True) (fun _ => True)) pool.

(** The session is authenticated and no request of the pool has been
    answered "Browser not initialized". *)
Definition serving (pr : Proc W) : Prop :=
  authenticated (state pr) /\
  well_formed (tasks pr) /\
  Forall (fun tk => response_of tk <> Some no_browser) (tasks pr).

End Outcomes.

(** * Properties *)

Section Properties.

Context {W : Type} `{!Driver W}.

Implicit Types (st : State W) (req : Request) (res : Response) (u : string).
Implicit Types (R : State W -> State W -> Prop).

Lemma run_bind {A B} (m : Prog W A) (k : A -> Prog W B) st :
  run (bind m k) st =
  match run m st with
  | (st', Resolved a) => run (k a) st'
  | (st', Rejected e) => (st', Rejected e)
  end.
Proof.
  revert st. induction m as [a | e | X f k' IH | T c k' IH]; intros st; simpl.
  - reflexivity.
  - reflexivity.
  - destruct (f st) as [st' x]. apply IH.
  - destruct (issue c st) as [st' r]. apply IH.
Qed.

Lemma run_try_catch {A} (m : Prog W A) (h : Exn -> Prog W A) st :
  run (try_catch m h) st =
  match run m st with
  | (st', Resolved a) => (st', Resolved a)
  | (st', Rejected e) => run (h e) st'
  end.
Proof.
  revert st. induction m as [a | e | X f k' IH | T c k' IH]; intros st; simpl.
  - reflexivity.
  - reflexivity.
  - destruct (f st) as [st' x]. apply IH.
  - destruct (issue c st) as [st' r]. apply IH.
Qed.

Lemma held_true {A} (x : A) : bool_decide (is_Some (Some x)) = true.
Proof. apply bool_decide_eq_true_2. eauto. Qed.

Lemma held_false {A} : bool_decide (is_Some (@None A)) = false.
Proof. apply bool_decide_eq_false_2. intros [x Hx]. discriminate. Qed.

Lemma Map_has_hit k (m : gmap string string) v : m !! k = Some v -> Map_has k m = true.
Proof. intros Hk. unfold Map_has. rewrite Hk. apply held_true. Qed.

Lemma Map_has_miss k (m : gmap string string) : m !! k = None -> Map_has k m = false.
Proof. intros Hk. unfold Map_has. rewrite Hk. apply held_false. Qed.

Lemma issue_eq {T} (c : Call T) st w' r :
  exec c (world st) = (w', r) ->
  issue c st =
    (mkState (browser st) (persistentPage st) (formCache st) w'
       (trace st ++ [ECall c]) (listening st) (exited st), r).
Proof. intros Hexec. unfold issue. rewrite Hexec. reflexivity. Qed.

(** Running to completion is advancing one [await] at a time. *)
Lemma run_advance {A} (t : Prog W A) st :
  run t st = run (snd (advance t st)) (fst (advance t st)).
Proof.
  revert st. induction t as [a | e | X f k IH | T c k IH]; intros st; simpl.
  - reflexivity.
  - reflexivity.
  - destruct (f st) as [st' x]. apply IH.
  - destruct (issue c st) as [st' r]. reflexivity.
Qed.

(** *** The fetch handler, one request at a time *)

Lemma valid_url_passes u :
  u <> "" ->
  negb (truthy (QString u)) || negb (JsType_eqb (typeof (QString u)) TyString) = false.
Proof. destruct u; [congruence | reflexivity]. Qed.

Lemma handler_valid req u :
  query req !! "url" = Some (QString u) -> u <> "" ->
  fetchFormHandler (W := W) req fresh =
    (b <- gets browser ;;
     p <- gets persistentPage ;;
     if negb (bool_decide (is_Some b)) || negb (bool_decide (is_Some p)) then
       Ret (res_json not_initialized (res_status 500 fresh))
     else
       try_catch
         (cache <- gets formCache ;;
          if Map_has u cache then
            console_log ("Cache hit for " ++ u) ;;
            Ret (res_send (Map_get u cache) fresh)
          else
            on_page (fun p => Goto p u "domcontentloaded") ;;
            html <- on_page Content ;;
            formCache_set u html ;;
            console_log ("Fetched and cached " ++ u) ;;
            Ret (res_send (Some html) fresh))
         (fetch_catch fresh))%string.
Proof.
  intros Hq Hu. unfold fetchFormHandler, prop. rewrite Hq. simpl default.
  rewrite (valid_url_passes u Hu). reflexivity.
Qed.

Lemma run_handler_invalid req st :
  negb (truthy (prop (query req) "url"))
  || negb (JsType_eqb (typeof (prop (query req) "url")) TyString) = true ->
  run (fetchFormHandler req fresh) st = (st, Resolved bad_request) /\
  advance (fetchFormHandler req fresh) st = (st, Ret bad_request).
Proof.
  intros Hbad. unfold fetchFormHandler. rewrite Hbad. split; reflexivity.
Qed.

(** C3: a request whose [url] parameter is missing, or is present but not
    a single string (an array from a repeated key, a nested object), is
    answered 400 with the error "URL is required and must be a string",
    whatever the session state, the cache and the outside world are; the
    handler finishes in its first turn and leaves the state untouched. *)
Theorem missing_or_non_string_url_rejected req st :
  query req !! "url" = None \/
  (exists v, query req !! "url" = Some v /\ typeof v <> TyString) ->
  run (fetchFormHandler req fresh) st = (st, Resolved bad_request) /\
  advance (fetchFormHandler req fresh) st = (st, Ret bad_request).
Proof.
  intros Hurl. apply run_handler_invalid. unfold prop.
  destruct Hurl as [-> | (v & -> & Hty)]; [reflexivity |].
  destruct v; simpl in *; try reflexivity. congruence.
Qed.

(** C10: when the [url] parameter is present and is a string, but the
    empty string, the falsy test rejects it: 400 with the same error. *)
Theorem empty_url_rejected req st :
  query req !! "url" = Some (QString "") ->
  run (fetchFormHandler req fresh) st = (st, Resolved bad_request).
Proof.
  intros Hurl. apply run_handler_invalid. unfold prop. rewrite Hurl. reflexivity.
Qed.

(** C4: with a valid [url], a session whose browser or page reference is
    null is answered 500 "Browser not initialized"; the cache is not
    consulted, so this holds for every cache, one holding the URL
    included. *)
Theorem unauthenticated_session_rejected req u st :
  query req !! "url" = Some (QString u) -> u <> "" ->
  browser st = None \/ persistentPage st = None ->
  run (fetchFormHandler req fresh) st = (st, Resolved no_browser).
Proof.
  intros Hq Hu Hnull. rewrite (handler_valid req u Hq Hu). simpl.
  destruct Hnull as [-> | ->]; rewrite held_false; simpl.
  - reflexivity.
  - rewrite orb_true_r. reflexivity.
Qed.

(** The miss path when the handler runs from its first statement to its
    last with nothing in between: [goto(u, domcontentloaded)] on the
    session's page, then [content()], then the store under [u] itself and
    the 200. *)
Lemma run_miss req u st b p w1 w2 html :
  query req !! "url" = Some (QString u) -> u <> "" ->
  browser st = Some b -> persistentPage st = Some p ->
  formCache st !! u = None ->
  exec (Goto p u "domcontentloaded") (world st) = (w1, Resolved tt) ->
  exec (Content p) w1 = (w2, Resolved html) ->
  run (fetchFormHandler req fresh) st =
    (mkState (Some b) (Some p) (<[u := html]> (formCache st)) w2
       (trace st ++ [ECall (Goto p u "domcontentloaded"); ECall (Content p);
                     ELog ("Fetched and cached " ++ u)])
       (listening st) (exited st),
     Resolved (ok_html html)).
Proof.
  intros Hq Hu Hb Hp Hmiss Hgoto Hcontent.
  rewrite (handler_valid req u Hq Hu).
  destruct st as [b0 p0 cache w tr l x]; simpl in *; subst b0 p0.
  rewrite !held_true. simpl. rewrite (Map_has_miss _ _ Hmiss). simpl.
  unfold issue; simpl. rewrite Hgoto. simpl.
  unfold issue; simpl. rewrite Hcontent. simpl.
  rewrite <- !app_assoc. reflexivity.
Qed.

Lemma same_process_refl st : same_process st st.
Proof. repeat split. Qed.

Lemma same_process_trans st1 st2 st3 :
  same_process st1 st2 -> same_process st2 st3 -> same_process st1 st3.
Proof. unfold same_process. intuition congruence. Qed.

(** The handler always answers: its promise never rejects, and the
    response it leaves has been sent. *)
Lemma handler_total req st :
  exists st' res,
    run (fetchFormHandler req fresh) st = (st', Resolved res) /\
    is_Some (sent res) /\ same_process st st'.
Proof.
  unfold fetchFormHandler.
  destruct (negb (truthy (prop (query req) "url")) || _).
  { exists st, bad_request. simpl. eauto using same_process_refl. }
  destruct st as [[b|] [p|] cache w tr l x]; simpl;
    rewrite ?held_true, ?held_false; simpl;
    try (eexists _, _; split; [reflexivity|]; split; [simpl; eauto | repeat split]).
  destruct (Map_has _ cache); simpl.
  { eexists _, _; split; [reflexivity|]; split; [simpl; eauto | repeat split]. }
  unfold issue; simpl.
  destruct (exec (Goto p _ _) w) as [w1 [[]|e]]; simpl.
  2: { eexists _, _; split; [reflexivity|]; split; [simpl; eauto | repeat split]. }
  unfold issue; simpl.
  destruct (exec (Content p) w1) as [w2 [html|e]]; simpl;
    eexists _, _; (split; [reflexivity|]; split; [simpl; eauto | repeat split]).
Qed.

Lemma serve_total reqs st :
  exists st' rs,
    serve reqs st = (st', rs) /\ length rs = length reqs /\
    Forall (fun r => exists res, r = Resolved res /\ is_Some (sent res)) rs /\
    same_process st st'.
Proof.
  revert st. induction reqs as [| req rest IH]; intros st; simpl.
  - exists st, []. repeat split. constructor.
  - destruct (handler_total req st) as (st1 & res & -> & Hsent & Hsame1).
    destruct (IH st1) as (st2 & rs & -> & Hlen & Hall & Hsame2).
    exists st2, (Resolved res :: rs). split; [reflexivity|].
    split; [simpl; congruence|]. split; [constructor; eauto|].
    eapply same_process_trans; eassumption.
Qed.

(** C5: when the request is valid, the session is authenticated and the
    URL is not cached, a rejection of [goto], or of [content] after
    [goto] resolved, is caught: the answer is 500 "Failed to fetch form".
    The failure stays in that request: the process has not exited, the
    transport and the session are as before, nothing was cached, and
    every request that follows is answered. *)
Theorem fetch_failure_is_local req u st b p :
  query req !! "url" = Some (QString u) -> u <> "" ->
  browser st = Some b -> persistentPage st = Some p ->
  formCache st !! u = None ->
  (exists w e, exec (Goto p u "domcontentloaded") (world st) = (w, Rejected e)) \/
  (exists w1 w2 e,
      exec (Goto p u "domcontentloaded") (world st) = (w1, Resolved tt) /\
      exec (Content p) w1 = (w2, Rejected e)) ->
  exists st',
    run (fetchFormHandler req fresh) st = (st', Resolved fetch_error) /\
    same_process st st' /\
    formCache st' = formCache st /\
    forall reqs, exists st'' rs,
      serve reqs st' = (st'', rs) /\ length rs = length reqs /\
      Forall (fun r => exists res, r = Resolved res /\ is_Some (sent res)) rs /\
      same_process st st''.
Proof.
  intros Hq Hu Hb Hp Hmiss Hfail.
  assert (exists st',
    run (fetchFormHandler req fresh) st = (st', Resolved fetch_error) /\
    same_process st st' /\ formCache st' = formCache st) as (st' & Hrun & Hsame & Hcache).
  { rewrite (handler_valid req u Hq Hu).
    destruct st as [b0 p0 cache w tr l x]; simpl in *; subst b0 p0.
    rewrite !held_true. simpl. rewrite (Map_has_miss _ _ Hmiss). simpl.
    unfold issue; simpl.
    destruct Hfail as [(w1 & e & Hgoto) | (w1 & w2 & e & Hgoto & Hcontent)];
      rewrite Hgoto; simpl.
    - eexists; split; [reflexivity|]. repeat split.
    - unfold issue; simpl. rewrite Hcontent. simpl.
      eexists; split; [reflexivity|]. repeat split. }
  exists st'. repeat (split; [assumption|]).
  intros reqs. destruct (serve_total reqs st') as (st'' & rs & Hs & Hlen & Hall & Hsame').
  exists st'', rs. repeat (split; [assumption|]).
  eapply same_process_trans; eassumption.
Qed.

(** *** Startup *)

Lemma respects_bind R {A B} (m : Prog W A) (k : A -> Prog W B) :
  respects R m -> (forall a, respects R (k a)) -> respects R (bind m k).
Proof.
  intros Hm Hk. induction Hm; simpl; try constructor; auto.
Qed.

Lemma respects_try_catch R {A} (m : Prog W A) h :
  respects R m -> (forall e, respects R (h e)) -> respects R (try_catch m h).
Proof.
  intros Hm Hh. induction Hm; simpl; try constructor; auto.
Qed.

Lemma respects_settle R {T} (r : Settled T) : respects R (settle r).
Proof. destruct r; constructor. Qed.

Lemma respects_call R {T} (c : Call T) : respects R (call c).
Proof. constructor. intros r. apply respects_settle. Qed.

Section Respect.

Variable R : State W -> State W -> Prop.
Hypothesis R_refl : forall st, R st st.
Hypothesis R_trans : forall st1 st2 st3, R st1 st2 -> R st2 st3 -> R st1 st3.
Hypothesis R_issue : forall T (c : Call T) st, R st (fst (issue c st)).

Lemma run_respects {A} (t : Prog W A) st : respects R t -> R st (fst (run t st)).
Proof.
  intros Ht. revert st. induction Ht as [a | e | X f k Hf _ IH | T c k _ IH];
    intros st; simpl; auto.
  - specialize (Hf st). destruct (f st) as [st' x]. eauto.
  - specialize (R_issue T c st). destruct (issue c st) as [st' r]. eauto.
Qed.

End Respect.

Lemma same_transport_issue T (c : Call T) st : same_transport st (fst (issue c st)).
Proof. unfold issue. destruct (exec c (world st)). split; reflexivity. Qed.

Lemma same_transport_refl st : same_transport st st.
Proof. split; reflexivity. Qed.

Lemma same_transport_trans st1 st2 st3 :
  same_transport st1 st2 -> same_transport st2 st3 -> same_transport st1 st3.
Proof. unfold same_transport. intuition congruence. Qed.

Lemma run_same_transport {A} (t : Prog W A) st :
  respects same_transport t -> same_transport st (fst (run t st)).
Proof.
  apply run_respects.
  - apply same_transport_refl.
  - apply same_transport_trans.
  - apply same_transport_issue.
Qed.

Ltac respects_tac :=
  repeat first
    [ apply respects_bind; [| intros ?]
    | apply respects_try_catch; [| intros ?]
    | apply respects_call
    | apply respects_settle
    | apply respects_Ret
    | apply respects_Throw
    | apply respects_Await; intros ?
    | apply respects_Act; [intros ?; try (split; reflexivity) | intros ?]
    | match goal with
      | |- respects _ (match ?x with _ => _ end) => destruct x
      | |- respects _ (if ?x then _ else _) => destruct x
      end ].

Lemma login_same_transport env : respects (W := W) same_transport (login env).
Proof.
  unfold login, submit_identifier, verification_branch, password_branch. respects_tac.
Qed.

(** The [catch] of [initializeBrowser] always rethrows; when its two
    release calls resolve it has nulled both references and rethrows the
    error it caught. *)
Lemma run_release e st :
  exists st' e',
    run (release e) st = (st', Rejected e') /\
    same_transport st st' /\
    (release_resolves st ->
     e' = e /\ browser st' = None /\ persistentPage st' = None /\
     world st' = after_release st /\
     trace st' = (trace st ++ EError "Failed to initialize browser:" e :: held_closes st)%list).
Proof.
  unfold release_resolves, after_release, after_page_close, held_closes.
  destruct st as [[b|] [p|] cache w tr l x]; simpl; unfold issue; simpl.
  - destruct (exec (PageClose p) w) as [w1 [[]|e1]] eqn:Hp; simpl.
    + unfold issue; simpl.
      destruct (exec (BrowserClose b) w1) as [w2 [[]|e2]] eqn:Hb; simpl.
      * eexists _, _. split; [reflexivity|]. split; [split; reflexivity|].
        intros _. rewrite <- !app_assoc. repeat split.
      * eexists _, _. split; [reflexivity|]. split; [split; reflexivity|].
        intros [_ Hbr]. specialize (Hbr b eq_refl). simpl in Hbr.
        rewrite Hb in Hbr. discriminate.
    + eexists _, _. split; [reflexivity|]. split; [split; reflexivity|].
      intros [Hpg _]. specialize (Hpg p eq_refl). rewrite Hp in Hpg. discriminate.
  - destruct (exec (BrowserClose b) w) as [w2 [[]|e2]] eqn:Hb; simpl.
    + eexists _, _. split; [reflexivity|]. split; [split; reflexivity|].
      intros _. rewrite <- !app_assoc. repeat split.
    + eexists _, _. split; [reflexivity|]. split; [split; reflexivity|].
      intros [_ Hbr]. specialize (Hbr b eq_refl). simpl in Hbr.
      rewrite Hb in Hbr. discriminate.
  - destruct (exec (PageClose p) w) as [w1 [[]|e1]] eqn:Hp; simpl.
    + eexists _, _. split; [reflexivity|]. split; [split; reflexivity|].
      intros _. rewrite <- !app_assoc. repeat split.
    + eexists _, _. split; [reflexivity|]. split; [split; reflexivity|].
      intros [Hpg _]. specialize (Hpg p eq_refl). rewrite Hp in Hpg. discriminate.
  - eexists _, _. split; [reflexivity|]. split; [split; reflexivity|].
    intros _. repeat split.
Qed.

(** An exited process ignores whatever comes next. *)
Lemma schedule_exited (pr : Proc W) code acts :
  exited (state pr) = Some code -> schedule pr acts = pr.
Proof.
  intros Hx. induction acts as [| a acts IH]; simpl; [reflexivity|].
  unfold schedule in *. simpl. unfold step at 2. rewrite Hx. exact IH.
Qed.

(** C6 (as amended): when a step of the login raises, [initializeBrowser]
    itself raises, [startServer] never reaches [app.listen], and the
    process exits with code 1 and accepts nothing afterwards.  The
    [catch] calls [close] on the page if held, then on the browser if
    held; when those calls resolve, both references are null and the
    error raised is the one caught. *)
Theorem initialize_failure_aborts_startup env (w : W) st1 e :
  run (login env) (boot w) = (st1, Rejected e) ->
  (exists st2 e',
     run (initializeBrowser env) (boot w) = (st2, Rejected e') /\
     (release_resolves st1 ->
      e' = e /\ browser st2 = None /\ persistentPage st2 = None /\
      trace st2 =
        (trace st1 ++ EError "Failed to initialize browser:" e :: held_closes st1)%list)) /\
  exited (startup env w) = Some 1 /\
  listening (startup env w) = false /\
  forall acts, schedule (mkProc (startup env w) []) acts = mkProc (startup env w) [].
Proof.
  intros Hlogin.
  destruct (run_release e st1) as (st2 & e' & Hrel & [Hl2 Hx2] & Hok).
  assert (Hinit : run (initializeBrowser env) (boot w) = (st2, Rejected e')).
  { unfold initializeBrowser. rewrite run_try_catch, Hlogin. exact Hrel. }
  assert (Hl1 : listening st1 = false).
  { destruct (run_same_transport (login env) (boot w) (login_same_transport env))
      as [Hl _].
    rewrite Hlogin in Hl. exact Hl. }
  split.
  - exists st2, e'. split; [exact Hinit|]. intros Hres.
    destruct (Hok Hres) as (? & ? & ? & ? & ?). auto.
  - unfold startup, main, startServer.
    rewrite run_try_catch, run_bind, Hinit. simpl.
    split; [reflexivity|]. split; [congruence|].
    intros acts. apply schedule_exited with (code := 1). reflexivity.
Qed.

Lemma initialize_resolved env st st' :
  run (initializeBrowser env) st = (st', Resolved tt) ->
  run (login env) st = (st', Resolved tt).
Proof.
  unfold initializeBrowser. rewrite run_try_catch.
  destruct (run (login env) st) as [st1 [[]|e]]; [auto|].
  destruct (run_release e st1) as (? & ? & -> & _). discriminate.
Qed.

Ltac next_call H :=
  match type of H with
  | context [exec ?c ?w] =>
      let r := fresh "r" in
      destruct (exec c w) as [? r];
      destruct r; simpl in H; try discriminate H;
      unfold issue in H; simpl in H
  end.

(** C7: a run of [initializeBrowser] that succeeds took exactly one of
    the two branches after the common steps: either the password branch
    (type the secret, click next, wait for the navigation) or the
    verification branch (select the email-code option, ask the human for
    the code, submit it, wait for the navigation).  Its trace contains
    the submission of one branch and not of the other, and no failure
    report: the [catch], which is where a run fails, was never entered,
    and it always rethrows. *)
Theorem authenticated_by_exactly_one_branch env st st' :
  run (initializeBrowser env) st = (st', Resolved tt) ->
  exists b p branch,
    browser st' = Some b /\ persistentPage st' = Some p /\
    trace st' =
      (trace st ++ preamble env b p ++ branch ++ [ELog "Logged in successfully"])%list /\
    (branch = password_events env p \/
     exists option code, branch = challenge_events p option code) /\
    existsb submits_password branch = negb (existsb submits_code branch) /\
    existsb asks_human branch = existsb submits_code branch /\
    existsb is_failure (preamble env b p ++ branch) = false.
Proof.
  intros H%initialize_resolved. unfold login, submit_identifier in H.
  destruct st as [b0 p0 cache w tr l x]. simpl in H. unfold issue in H; simpl in H.
  do 8 next_call H.
  match type of H with
  | context [isVerificationPrompt ?d] => destruct (isVerificationPrompt d)
  end; simpl in H; unfold issue in H; simpl in H.
  - next_call H.
    match type of H with
    | context [match ?o with Some _ => _ | None => _ end] => destruct o as [option|]
    end; simpl in H; [| discriminate H].
    unfold issue in H; simpl in H.
    do 7 next_call H.
    injection H as <-. simpl.
    eexists _, _, (challenge_events _ option _).
    split; [reflexivity|]. split; [reflexivity|].
    split; [rewrite <- !app_assoc; reflexivity|].
    split; [right; eauto|]. repeat split.
  - do 3 next_call H.
    injection H as <-. simpl.
    eexists _, _, (password_events env _).
    split; [reflexivity|]. split; [reflexivity|].
    split; [rewrite <- !app_assoc; reflexivity|].
    split; [left; reflexivity|]. repeat split.
Qed.

Lemma no_login_report_refl st : no_login_report st st.
Proof. exists []. split; [symmetry; apply app_nil_r | reflexivity]. Qed.

Lemma no_login_report_trans st1 st2 st3 :
  no_login_report st1 st2 -> no_login_report st2 st3 -> no_login_report st1 st3.
Proof.
  intros (n1 & H1 & Hq1) (n2 & H2 & Hq2). exists (n1 ++ n2)%list. split.
  - rewrite H2, H1, app_assoc. reflexivity.
  - rewrite existsb_app, Hq1, Hq2. reflexivity.
Qed.

Lemma no_login_report_issue T (c : Call T) st : no_login_report st (fst (issue c st)).
Proof.
  unfold issue. destruct (exec c (world st)). exists [ECall c]. split; reflexivity.
Qed.

Lemma run_no_login_report {A} (t : Prog W A) st :
  respects no_login_report t -> no_login_report st (fst (run t st)).
Proof.
  apply run_respects.
  - apply no_login_report_refl.
  - apply no_login_report_trans.
  - apply no_login_report_issue.
Qed.

Ltac quiet_tac :=
  repeat first
    [ apply respects_bind; [| intros ?]
    | apply respects_call
    | apply respects_Ret
    | apply respects_Throw
    | apply respects_Await; intros ?
    | apply respects_Act;
        [ intros ?; first [ exists []; split; [simpl; rewrite app_nil_r |]; reflexivity
                          | eexists [_]; split; reflexivity ]
        | intros ? ]
    | match goal with
      | |- respects _ (match ?x with _ => _ end) => destruct x
      | |- respects _ (if ?x then _ else _) => destruct x
      end ].

Lemma submit_identifier_quiet env :
  respects (W := W) no_login_report (submit_identifier env).
Proof. unfold submit_identifier. quiet_tac. Qed.

Lemma branch_quiet env (detected : bool) :
  respects (W := W) no_login_report
    (if detected then verification_branch else password_branch env).
Proof. unfold verification_branch, password_branch. quiet_tac. Qed.

Lemma release_quiet e : respects (W := W) no_login_report (release e).
Proof. unfold release. quiet_tac. Qed.

(** A run of [initializeBrowser] that raises has reported no login: the
    success line is the last statement of the [try], and the [catch] does
    not run the login again. *)
Lemma failed_initialize_reports_no_login env st st2 e :
  run (initializeBrowser env) st = (st2, Rejected e) ->
  no_login_report st st2.
Proof.
  unfold initializeBrowser, login. rewrite run_try_catch, run_bind.
  pose proof (run_no_login_report _ st (submit_identifier_quiet env)) as H1.
  destruct (run (submit_identifier env) st) as [st1 [[]|e1]]; simpl in H1.
  2: { intros Hrel. eapply no_login_report_trans; [exact H1|].
       pose proof (run_no_login_report _ st1 (release_quiet e1)) as Hr.
       rewrite Hrel in Hr. exact Hr. }
  assert (Heval : respects (W := W) no_login_report (on_page Evaluate)).
  { unfold on_page. quiet_tac. }
  rewrite run_bind.
  pose proof (run_no_login_report _ st1 Heval) as H2.
  destruct (run (on_page Evaluate) st1) as [st1' [document|e1]]; simpl in H2.
  2: { intros Hrel. eapply no_login_report_trans; [exact H1|].
       eapply no_login_report_trans; [exact H2|].
       pose proof (run_no_login_report _ st1' (release_quiet e1)) as Hr.
       rewrite Hrel in Hr. exact Hr. }
  rewrite run_bind.
  pose proof (run_no_login_report _ st1'
                (branch_quiet env (isVerificationPrompt document))) as H3.
  destruct (run (if isVerificationPrompt document then _ else _) st1')
    as [st1'' [[]|e1]]; simpl in H3.
  - simpl. discriminate.
  - intros Hrel. eapply no_login_report_trans; [exact H1|].
    eapply no_login_report_trans; [exact H2|].
    eapply no_login_report_trans; [exact H3|].
    pose proof (run_no_login_report _ st1'' (release_quiet e1)) as Hr.
    rewrite Hrel in Hr. exact Hr.
Qed.

(** *** The handlers in the event loop *)

Lemma Map_has_false k (m : gmap string string) : Map_has k m = false -> m !! k = None.
Proof.
  unfold Map_has. intros Hno. destruct (m !! k) eqn:Hk; [| reflexivity].
  rewrite held_true in Hno. discriminate.
Qed.

Lemma Map_has_true k (m : gmap string string) :
  Map_has k m = true -> exists v, m !! k = Some v.
Proof.
  unfold Map_has. intros Hyes. destruct (m !! k) eqn:Hk; [eauto |].
  rewrite held_false in Hyes. discriminate.
Qed.

(** The first turn of a fetch handler: it answers at once, or it has
    missed the cache and is suspended at [goto]. *)
Lemma advance_entered req st :
  same_process st (fst (advance (fetchFormHandler req fresh) st)) /\
  formCache (fst (advance (fetchFormHandler req fresh) st)) = formCache st /\
  ((exists res, snd (advance (fetchFormHandler req fresh) st) = Ret res) \/
   (exists u r, snd (advance (fetchFormHandler req fresh) st) = at_goto u fresh r /\
                formCache st !! u = None)).
Proof.
  unfold fetchFormHandler.
  destruct (negb (truthy (prop (query req) "url")) || _).
  { simpl. repeat split. eauto. }
  destruct st as [[b|] [p|] cache w tr l x]; simpl;
    rewrite ?held_true, ?held_false; simpl;
    try (repeat split; eauto; fail).
  destruct (Map_has _ cache) eqn:Hhas; simpl.
  { repeat split. eauto. }
  unfold issue; simpl. destruct (exec (Goto p _ _) w) as [w1 r]; simpl.
  repeat split. right. eexists _, r. split; [reflexivity|].
  apply Map_has_false. exact Hhas.
Qed.

(** The turn after [goto]: the handler answers 500, or it is suspended at
    [content]. *)
Lemma advance_at_goto u r st :
  same_process st (fst (advance (at_goto u fresh r) st)) /\
  formCache (fst (advance (at_goto u fresh r) st)) = formCache st /\
  ((exists res, snd (advance (at_goto u fresh r) st) = Ret res) \/
   (exists r', snd (advance (at_goto u fresh r) st) = at_content u fresh r')).
Proof.
  unfold at_goto. destruct r as [[]|e]; simpl.
  2: { repeat split. eauto. }
  destruct st as [b [p|] cache w tr l x]; simpl.
  2: { repeat split. eauto. }
  unfold issue; simpl. destruct (exec (Content p) w) as [w1 r]; simpl.
  repeat split. right. exists r. reflexivity.
Qed.

(** The last turn: the handler stores under its own URL only, and
    answers. *)
Lemma advance_at_content u r st :
  same_process st (fst (advance (at_content u fresh r) st)) /\
  (forall k, k <> u ->
     formCache (fst (advance (at_content u fresh r) st)) !! k = formCache st !! k) /\
  exists res, snd (advance (at_content u fresh r) st) = Ret res.
Proof.
  unfold at_content. destruct r as [html|e]; simpl.
  - repeat split; eauto. intros k Hk. apply lookup_insert_ne. congruence.
  - repeat split; eauto.
Qed.

(** The turns of a shutdown handler.  Each either exits the process with
    code 0, or leaves the exit code alone and is suspended on a [close]
    the driver has settled, or has been rejected by the promise it held. *)
Lemma advance_shutdown st :
  same_session st (fst (advance shutdown st)) /\
  ((snd (advance shutdown st) = Ret tt /\ exited (fst (advance shutdown st)) = Some 0) \/
   (exited (fst (advance shutdown st)) = exited st /\
    ((exists w page, snd (advance shutdown st) = at_page_close (snd (exec (PageClose page) w))) \/
     (exists w br, snd (advance shutdown st) = at_browser_close (snd (exec (BrowserClose br) w)))))).
Proof.
  unfold shutdown.
  destruct st as [[b|] [p|] cache w tr l x]; simpl; unfold issue; simpl.
  - destruct (exec (PageClose p) _) as [w1 r] eqn:Hc; simpl.
    split; [repeat split|]. right. split; [reflexivity|]. left.
    exists w, p. rewrite Hc. reflexivity.
  - destruct (exec (BrowserClose b) _) as [w1 r] eqn:Hc; simpl.
    split; [repeat split|]. right. split; [reflexivity|]. right.
    exists w, b. rewrite Hc. reflexivity.
  - destruct (exec (PageClose p) _) as [w1 r] eqn:Hc; simpl.
    split; [repeat split|]. right. split; [reflexivity|]. left.
    exists w, p. rewrite Hc. reflexivity.
  - split; [repeat split|]. left. split; reflexivity.
Qed.

Lemma advance_at_page_close r st :
  same_session st (fst (advance (at_page_close r) st)) /\
  ((snd (advance (at_page_close r) st) = Ret tt /\
    exited (fst (advance (at_page_close r) st)) = Some 0) \/
   (exited (fst (advance (at_page_close r) st)) = exited st /\
    ((exists e, r = Rejected e /\ snd (advance (at_page_close r) st) = Throw e) \/
     (exists w br, snd (advance (at_page_close r) st) =
                   at_browser_close (snd (exec (BrowserClose br) w)))))).
Proof.
  unfold at_page_close. destruct r as [[]|e]; simpl.
  2: { split; [repeat split|]. right. split; [reflexivity|]. left. eauto. }
  destruct st as [[b|] p cache w tr l x]; simpl; unfold issue; simpl.
  - destruct (exec (BrowserClose b) _) as [w1 r] eqn:Hc; simpl.
    split; [repeat split|]. right. split; [reflexivity|]. right.
    exists w, b. rewrite Hc. reflexivity.
  - split; [repeat split|]. left. split; reflexivity.
Qed.

Lemma advance_at_browser_close r st :
  same_session st (fst (advance (at_browser_close r) st)) /\
  ((snd (advance (at_browser_close r) st) = Ret tt /\
    exited (fst (advance (at_browser_close r) st)) = Some 0) \/
   (exited (fst (advance (at_browser_close r) st)) = exited st /\
    exists e, r = Rejected e /\ snd (advance (at_browser_close r) st) = Throw e)).
Proof.
  unfold at_browser_close. destruct r as [[]|e]; simpl.
  - split; [repeat split|]. left. split; reflexivity.
  - split; [repeat split|]. right. split; [reflexivity|]. eauto.
Qed.

(** One turn of any handler of the pool.  It keeps the session references
    and the transport, leaves the exit code alone or sets it to 0, writes
    to the cache only under the URL of a fetch that had missed it, and
    leaves the handler in one of its phases. *)
Lemma resume_task (P : string -> Prop) (Q : Settled unit -> Prop) tk st :
  task_phase P Q tk ->
  (forall u, formCache st !! u = None -> P u) ->
  (forall w page, Q (snd (exec (PageClose page) w))) ->
  (forall w br, Q (snd (exec (BrowserClose br) w))) ->
  task_phase P Q (snd (resume tk st)) /\
  browser (fst (resume tk st)) = browser st /\
  persistentPage (fst (resume tk st)) = persistentPage st /\
  listening (fst (resume tk st)) = listening st /\
  (exited (fst (resume tk st)) = exited st \/ exited (fst (resume tk st)) = Some 0) /\
  (forall k, ~ P k -> formCache (fst (resume tk st)) !! k = formCache st !! k).
Proof.
  intros Hphase Hmiss Hpage Hbrowser. destruct tk as [t | t]; simpl in *.
  - destruct Hphase as [req | u r Hu | u r Hu | res].
    + destruct (advance_entered req st) as ((Hx & Hl & Hb & Hp) & Hcache & Hnext).
      destruct (advance (fetchFormHandler req fresh) st) as [st' t']; simpl in *.
      split.
      { destruct Hnext as [[res ->] | (u & r & -> & Hu)]; constructor; auto. }
      repeat split; auto. intros k _. rewrite Hcache. reflexivity.
    + destruct (advance_at_goto u r st) as ((Hx & Hl & Hb & Hp) & Hcache & Hnext).
      destruct (advance (at_goto u fresh r) st) as [st' t']; simpl in *.
      split.
      { destruct Hnext as [[res ->] | [r' ->]]; constructor; auto. }
      repeat split; auto. intros k _. rewrite Hcache. reflexivity.
    + destruct (advance_at_content u r st) as ((Hx & Hl & Hb & Hp) & Hcache & [res Hnext]).
      destruct (advance (at_content u fresh r) st) as [st' t']; simpl in *.
      split; [rewrite Hnext; constructor|].
      repeat split; auto. intros k Hk. apply Hcache. intros ->. auto.
    + simpl. split; [constructor|]. repeat split; auto.
  - destruct Hphase as [| r Hr | r Hr | | e He].
    + destruct (advance_shutdown st) as ((Hb & Hp & Hcache & Hl) & Hnext).
      destruct (advance shutdown st) as [st' t']; simpl in *.
      split.
      { destruct Hnext as [[-> _] | [_ [(w & pg & ->) | (w & br & ->)]]];
          constructor; auto. }
      repeat split; auto.
      * destruct Hnext as [[_ ?] | [? _]]; auto.
      * intros k _. rewrite Hcache. reflexivity.
    + destruct (advance_at_page_close r st) as ((Hb & Hp & Hcache & Hl) & Hnext).
      destruct (advance (at_page_close r) st) as [st' t']; simpl in *.
      split.
      { destruct Hnext as [[-> _] | [_ [(e & -> & ->) | (w & br & ->)]]];
          constructor; auto. }
      repeat split; auto.
      * destruct Hnext as [[_ ?] | [? _]]; auto.
      * intros k _. rewrite Hcache. reflexivity.
    + destruct (advance_at_browser_close r st) as ((Hb & Hp & Hcache & Hl) & Hnext).
      destruct (advance (at_browser_close r) st) as [st' t']; simpl in *.
      split.
      { destruct Hnext as [[-> _] | [_ (e & -> & ->)]]; constructor; auto. }
      repeat split; auto.
      * destruct Hnext as [[_ ?] | [? _]]; auto.
      * intros k _. rewrite Hcache. reflexivity.
    + simpl. split; [constructor|]. repeat split; auto.
    + simpl. split; [constructor; auto|]. repeat split; auto.
Qed.

(** *** The cache across overlapping requests *)

Lemma settled_on_step u html pr a :
  settled_on u html pr -> settled_on u html (step pr a).
Proof.
  intros (Hcache & [Hb Hp] & Hpool). unfold settled_on, quiet_on, authenticated, step.
  unfold quiet_on in Hpool.
  destruct (exited (state pr)); [repeat split; assumption|].
  destruct a as [req | | i].
  - destruct (listening (state pr)); [| repeat split; assumption].
    repeat split; simpl; try assumption.
    apply Forall_app. split; [assumption|]. repeat constructor.
  - repeat split; simpl; try assumption.
    apply Forall_app. split; [assumption|]. repeat constructor.
  - destruct (tasks pr !! i) as [tk|] eqn:Hi; [| repeat split; assumption].
    assert (Hphase : task_phase (fun u' => u' <> u) (fun _ => True) tk).
    { eapply Forall_lookup_1; eassumption. }
    destruct (resume_task _ _ tk (state pr) Hphase) as (Hphase' & Hb' & Hp' & _ & _ & Hframe);
      try (intros; exact I).
    { intros u' Hnone ->. congruence. }
    destruct (resume tk (state pr)) as [st' tk']; simpl in *.
    repeat split; simpl.
    + rewrite Hframe; [assumption | tauto].
    + rewrite Hb'. assumption.
    + rewrite Hp'. assumption.
    + apply Forall_insert; assumption.
Qed.

Lemma settled_on_schedule u html acts pr :
  settled_on u html pr -> settled_on u html (schedule pr acts).
Proof.
  revert pr. induction acts as [| a acts IH]; intros pr Hinv; simpl; [assumption|].
  apply IH. apply settled_on_step. assumption.
Qed.

(** A hit answers in the handler's first turn, from the cache alone. *)
Lemma advance_hit req u html st :
  query req !! "url" = Some (QString u) -> u <> "" ->
  authenticated st ->
  formCache st !! u = Some html ->
  advance (fetchFormHandler req fresh) st =
    (logged (ELog ("Cache hit for " ++ u)) st, Ret (ok_html html)).
Proof.
  intros Hq Hu [[b Hb] [p Hp]] Hhit. rewrite (handler_valid req u Hq Hu).
  destruct st as [b0 p0 cache w tr l x]; simpl in *; subst b0 p0.
  rewrite !held_true. simpl. rewrite (Map_has_hit _ _ _ Hhit). simpl.
  unfold Map_get, logged, ok_html, res_send. simpl. rewrite Hhit. reflexivity.
Qed.

(** What a 200 tells about the state the handler leaves. *)
Lemma answered_ok req u html st st1 :
  query req !! "url" = Some (QString u) ->
  run (fetchFormHandler req fresh) st = (st1, Resolved (ok_html html)) ->
  u <> "" /\ authenticated st1 /\ formCache st1 !! u = Some html.
Proof.
  intros Hq Hrun.
  assert (Hu : u <> "").
  { intros ->. destruct (run_handler_invalid req st) as [Hbad _].
    - unfold prop. rewrite Hq. reflexivity.
    - rewrite Hbad in Hrun. discriminate. }
  split; [exact Hu|]. rewrite (handler_valid req u Hq Hu) in Hrun.
  destruct st as [[b|] [p|] cache w tr l x]; simpl in Hrun;
    rewrite ?held_true, ?held_false in Hrun; simpl in Hrun; try discriminate.
  destruct (Map_has u cache) eqn:Hhas; simpl in Hrun.
  - apply Map_has_true in Hhas as [v Hv].
    unfold Map_get, res_send, ok_html in Hrun. rewrite Hv in Hrun. simpl in Hrun.
    injection Hrun as <- ->. unfold authenticated. simpl. eauto.
  - unfold issue in Hrun; simpl in Hrun.
    destruct (exec (Goto p u _) w) as [w1 [[]|e]]; simpl in Hrun; [| discriminate].
    unfold issue in Hrun; simpl in Hrun.
    destruct (exec (Content p) w1) as [w2 [h|e]]; simpl in Hrun; [| discriminate].
    injection Hrun as <- ->. unfold authenticated. simpl.
    repeat split; eauto. apply lookup_insert_eq.
Qed.

(** C2 (as amended): after a first successful fetch of [u] with HTML
    [html], provided no other fetch of [u] is past its cache check at
    that moment, then under every interleaving of the requests and
    signals that follow: the cache keeps [html] under [u], and a fetch of
    [u] that starts answers 200 with [html] in its first turn, leaving
    the outside world where it was and making no navigation. *)
Theorem first_fetch_wins_without_overlap req u html st st1 pool acts :
  query req !! "url" = Some (QString u) ->
  run (fetchFormHandler req fresh) st = (st1, Resolved (ok_html html)) ->
  quiet_on u pool ->
  let now := state (schedule (mkProc st1 pool) acts) in
  formCache now !! u = Some html /\
  forall req', query req' !! "url" = Some (QString u) ->
    advance (fetchFormHandler req' fresh) now =
      (logged (ELog ("Cache hit for " ++ u)) now, Ret (ok_html html)) /\
    run (fetchFormHandler req' fresh) now =
      (logged (ELog ("Cache hit for " ++ u)) now, Resolved (ok_html html)) /\
    world (logged (ELog ("Cache hit for " ++ u)) now) = world now /\
    navigations (trace (logged (ELog ("Cache hit for " ++ u)) now)) =
      navigations (trace now).
Proof.
  intros Hq Hrun Hpool now.
  destruct (answered_ok req u html st st1 Hq Hrun) as (Hu & Hauth & Hcache).
  assert (Hinv : settled_on u html (schedule (mkProc st1 pool) acts)).
  { apply settled_on_schedule. repeat split; try assumption; apply Hauth. }
  destruct Hinv as (Hcache' & Hauth' & _). fold now in Hcache', Hauth'.
  split; [exact Hcache'|]. intros req' Hq'.
  pose proof (advance_hit req' u html now Hq' Hu Hauth' Hcache') as Hadv.
  split; [exact Hadv|]. split.
  - rewrite run_advance, Hadv. reflexivity.
  - split; [reflexivity|]. simpl. unfold navigations.
    rewrite filter_app, length_app. simpl. lia.
Qed.

(** *** Two requests on the one page *)

Lemma schedule_cons (pr : Proc W) a acts :
  schedule pr (a :: acts) = schedule (step pr a) acts.
Proof. reflexivity. Qed.

Lemma step_arrive (pr : Proc W) req :
  exited (state pr) = None -> listening (state pr) = true ->
  step pr (Arrive req) =
    mkProc (state pr) (tasks pr ++ [Fetch (fetchFormHandler req fresh)]).
Proof. intros Hx Hl. unfold step. rewrite Hx, Hl. reflexivity. Qed.

Lemma step_resume (pr : Proc W) i tk :
  exited (state pr) = None -> tasks pr !! i = Some tk ->
  step pr (Resume i) =
    mkProc (fst (resume tk (state pr))) (<[i := snd (resume tk (state pr))]> (tasks pr)).
Proof.
  intros Hx Hi. unfold step. rewrite Hx, Hi.
  destruct (resume tk (state pr)). reflexivity.
Qed.

Lemma advance_miss req u st p w1 r :
  query req !! "url" = Some (QString u) -> u <> "" ->
  is_Some (browser st) -> persistentPage st = Some p ->
  formCache st !! u = None ->
  exec (Goto p u "domcontentloaded") (world st) = (w1, r) ->
  advance (fetchFormHandler req fresh) st =
    (mkState (browser st) (persistentPage st) (formCache st) w1
       (trace st ++ [ECall (Goto p u "domcontentloaded")])
       (listening st) (exited st),
     at_goto u fresh r).
Proof.
  intros Hq Hu [b Hb] Hp Hmiss Hgoto. rewrite (handler_valid req u Hq Hu).
  destruct st as [b0 p0 cache w tr l x]; simpl in *; subst b0 p0.
  rewrite !held_true. simpl. rewrite (Map_has_miss _ _ Hmiss). simpl.
  unfold issue; simpl. rewrite Hgoto. reflexivity.
Qed.

Lemma advance_navigated u st p w1 r :
  persistentPage st = Some p ->
  exec (Content p) (world st) = (w1, r) ->
  advance (at_goto u fresh (Resolved tt)) st =
    (mkState (browser st) (persistentPage st) (formCache st) w1
       (trace st ++ [ECall (Content p)]) (listening st) (exited st),
     at_content u fresh r).
Proof.
  intros Hp Hcontent. unfold at_goto.
  destruct st as [b0 p0 cache w tr l x]; simpl in *; subst p0.
  unfold call; simpl. unfold issue; simpl. rewrite Hcontent. reflexivity.
Qed.

Lemma advance_captured u html st :
  advance (at_content u fresh (Resolved html)) st =
    (mkState (browser st) (persistentPage st) (<[u := html]> (formCache st))
       (world st) (trace st ++ [ELog ("Fetched and cached " ++ u)])
       (listening st) (exited st),
     Ret (ok_html html)).
Proof. reflexivity. Qed.

Lemma url_request_query u : query (url_request u) !! "url" = Some (QString u).
Proof. unfold url_request. simpl. apply lookup_singleton_eq. Qed.

(** C9: nothing orders the uses of the shared page.  With request A for
    [uA] and request B for [uB] both arrived, the event loop can run A up
    to its [goto], then B up to its [goto], at which point two
    navigate-then-capture transactions are in flight on the one page;
    when A resumes, its [content()] captures the document B navigated
    to, and A stores and answers that HTML under [uA]. *)
Theorem shared_page_interleaving st b p uA uB w1 w2 w3 hB :
  listening st = true -> exited st = None ->
  browser st = Some b -> persistentPage st = Some p ->
  uA <> "" -> uB <> "" -> uA <> uB ->
  formCache st !! uA = None -> formCache st !! uB = None ->
  exec (Goto p uA "domcontentloaded") (world st) = (w1, Resolved tt) ->
  exec (Goto p uB "domcontentloaded") w1 = (w2, Resolved tt) ->
  exec (Content p) w2 = (w3, Resolved hB) ->
  let in_flight :=
    schedule (mkProc st [])
      [Arrive (url_request uA); Arrive (url_request uB); Resume 0%nat; Resume 1%nat] in
  let later := schedule in_flight [Resume 0%nat; Resume 0%nat] in
  tasks in_flight =
    [Fetch (at_goto uA fresh (Resolved tt)); Fetch (at_goto uB fresh (Resolved tt))] /\
  tasks later !! 0%nat = Some (Fetch (Ret (ok_html hB))) /\
  formCache (state later) !! uA = Some hB /\
  formCache (state later) !! uB = None.
Proof.
  intros Hl Hx Hb Hp HuA HuB Hne HmissA HmissB HgotoA HgotoB Hcontent in_flight later.
  destruct st as [b0 p0 cache w tr l x];
    cbn [browser persistentPage formCache world trace listening exited] in *;
    subst b0 p0 l x.
  set (reqA := fetchFormHandler (W := W) (url_request uA) fresh).
  set (reqB := fetchFormHandler (W := W) (url_request uB) fresh).
  set (st0 := mkState (Some b) (Some p) cache w tr true None).
  set (st1 := mkState (Some b) (Some p) cache w1
                (tr ++ [ECall (Goto p uA "domcontentloaded")]) true None).
  set (st2 := mkState (Some b) (Some p) cache w2
                ((tr ++ [ECall (Goto p uA "domcontentloaded")]) ++
                 [ECall (Goto p uB "domcontentloaded")]) true None).
  assert (HA : advance reqA st0 = (st1, at_goto uA fresh (Resolved tt))).
  { apply (advance_miss _ uA st0 p w1); simpl; eauto using url_request_query. }
  assert (HB : advance reqB st1 = (st2, at_goto uB fresh (Resolved tt))).
  { apply (advance_miss _ uB st1 p w2); simpl; eauto using url_request_query. }
  assert (Hin : in_flight =
    mkProc st2 [Fetch (at_goto uA fresh (Resolved tt));
                Fetch (at_goto uB fresh (Resolved tt))]).
  { subst in_flight. rewrite !schedule_cons.
    rewrite (step_arrive (mkProc st0 [])) by reflexivity.
    rewrite (step_arrive (mkProc st0 _)) by reflexivity.
    rewrite (step_resume (mkProc st0 _) 0%nat (Fetch reqA)) by reflexivity.
    cbn [resume state tasks app]. rewrite HA. cbn [fst snd].
    rewrite (step_resume (mkProc st1 _) 1%nat (Fetch reqB)) by reflexivity.
    cbn [resume state tasks]. rewrite HB. reflexivity. }
  set (st3 := mkState (Some b) (Some p) cache w3
                (trace st2 ++ [ECall (Content p)]) true None).
  assert (HA' : advance (at_goto uA fresh (Resolved tt)) st2 =
                (st3, at_content uA fresh (Resolved hB))).
  { apply (advance_navigated uA st2 p w3); [reflexivity | exact Hcontent]. }
  assert (Hlater : later =
    mkProc (mkState (Some b) (Some p) (<[uA := hB]> cache) w3
              (trace st3 ++ [ELog ("Fetched and cached " ++ uA)]) true None)
           [Fetch (Ret (ok_html hB)); Fetch (at_goto uB fresh (Resolved tt))]).
  { subst later. rewrite Hin, !schedule_cons.
    rewrite (step_resume (mkProc st2 _) 0%nat (Fetch (at_goto uA fresh (Resolved tt))))
      by reflexivity.
    cbn [resume state tasks]. rewrite HA'. cbn [fst snd].
    rewrite (step_resume (mkProc st3 _) 0%nat (Fetch (at_content uA fresh (Resolved hB))))
      by reflexivity.
    cbn [resume state tasks]. rewrite advance_captured. reflexivity. }
  rewrite Hin, Hlater. simpl. repeat split.
  - apply lookup_insert_eq.
  - rewrite lookup_insert_ne; assumption.
Qed.

(** C1 (as amended): a fetch of a URL [u] that is absent from the cache,
    on an authenticated session, whose turns no other handler comes
    between, calls [goto(u, domcontentloaded)] on the session's page,
    then [content()], stores the HTML of the document it navigated to
    under exactly [u], and answers 200 with it (navigation and capture
    resolving; C5 is the other case).  This holds for the handler run on
    its own and, in the event loop, for a handler that takes its three
    turns in a row, whatever else is waiting in the pool. *)
Theorem miss_stores_own_document_without_overlap req u (pr : Proc W) i b p w1 w2 html :
  exited (state pr) = None ->
  tasks pr !! i = Some (Fetch (fetchFormHandler req fresh)) ->
  query req !! "url" = Some (QString u) -> u <> "" ->
  browser (state pr) = Some b -> persistentPage (state pr) = Some p ->
  formCache (state pr) !! u = None ->
  exec (Goto p u "domcontentloaded") (world (state pr)) = (w1, Resolved tt) ->
  exec (Content p) w1 = (w2, Resolved html) ->
  run (fetchFormHandler req fresh) (state pr) =
    (mkState (Some b) (Some p) (<[u := html]> (formCache (state pr))) w2
       (trace (state pr) ++
        [ECall (Goto p u "domcontentloaded"); ECall (Content p);
         ELog ("Fetched and cached " ++ u)])
       (listening (state pr)) None,
     Resolved (ok_html html)) /\
  schedule pr [Resume i; Resume i; Resume i] =
    mkProc
      (mkState (Some b) (Some p) (<[u := html]> (formCache (state pr))) w2
         (trace (state pr) ++
          [ECall (Goto p u "domcontentloaded"); ECall (Content p);
           ELog ("Fetched and cached " ++ u)])
         (listening (state pr)) None)
      (<[i := Fetch (Ret (ok_html html))]> (tasks pr)).
Proof.
  intros Hx Hi Hq Hu Hb Hp Hmiss Hgoto Hcontent.
  split.
  { rewrite (run_miss req u (state pr) b p w1 w2 html); auto. rewrite Hx. reflexivity. }
  pose proof (lookup_lt_Some _ _ _ Hi) as Hlen.
  destruct pr as [[b0 p0 cache w tr l x] pool];
    cbn [state tasks browser persistentPage formCache world trace listening exited] in *;
    subst b0 p0 x.
  set (st0 := mkState (Some b) (Some p) cache w tr l None).
  set (st1 := mkState (Some b) (Some p) cache w1
                (tr ++ [ECall (Goto p u "domcontentloaded")]) l None).
  set (st2 := mkState (Some b) (Some p) cache w2
                (trace st1 ++ [ECall (Content p)]) l None).
  assert (H1 : advance (fetchFormHandler req fresh) st0 = (st1, at_goto u fresh (Resolved tt))).
  { apply (advance_miss req u st0 p w1); simpl; eauto. }
  assert (H2 : advance (at_goto u fresh (Resolved tt)) st1 =
               (st2, at_content u fresh (Resolved html))).
  { apply (advance_navigated u st1 p w2); [reflexivity | exact Hcontent]. }
  rewrite !schedule_cons.
  rewrite (step_resume (mkProc st0 pool) i (Fetch (fetchFormHandler req fresh)))
    by (try reflexivity; exact Hi).
  cbn [resume state tasks]. rewrite H1. cbn [fst snd].
  rewrite (step_resume (mkProc st1 _) i (Fetch (at_goto u fresh (Resolved tt))))
    by (try reflexivity; apply list_lookup_insert_eq; exact Hlen).
  cbn [resume state tasks]. rewrite H2. cbn [fst snd].
  rewrite (step_resume (mkProc st2 _) i (Fetch (at_content u fresh (Resolved html))))
    by (try reflexivity; apply list_lookup_insert_eq; rewrite length_insert; exact Hlen).
  cbn [resume state tasks]. rewrite advance_captured. cbn [fst snd].
  rewrite !list_insert_insert_eq. unfold schedule. simpl.
  subst st2 st1. simpl. rewrite <- !app_assoc. reflexivity.
Qed.

(** *** Shutdown *)

Lemma run_shutdown st :
  release_resolves st -> run shutdown st = (shut_down st, Resolved tt).
Proof.
  unfold release_resolves, shut_down, after_release, after_page_close, held_closes, shutdown.
  destruct st as [[b|] [p|] cache w tr l x]; simpl; unfold issue; simpl;
    intros [Hpage Hbrowser].
  - specialize (Hpage p eq_refl).
    destruct (exec (PageClose p) w) as [w1 r1]; simpl in *; subst r1; simpl.
    specialize (Hbrowser b eq_refl). unfold issue; simpl.
    destruct (exec (BrowserClose b) w1) as [w2 r2]; simpl in *; subst r2; simpl.
    rewrite <- !app_assoc. reflexivity.
  - specialize (Hbrowser b eq_refl).
    destruct (exec (BrowserClose b) w) as [w2 r2]; simpl in *; subst r2; simpl.
    rewrite <- !app_assoc. reflexivity.
  - specialize (Hpage p eq_refl).
    destruct (exec (PageClose p) w) as [w1 r1]; simpl in *; subst r1; simpl.
    rewrite <- !app_assoc. reflexivity.
  - rewrite <- !app_assoc. reflexivity.
Qed.

(** The inline handlers of the earlier revision: the same outcome, minus
    the readline interface. *)
Lemma run_shutdown_inline st :
  release_resolves st ->
  run shutdown_inline st =
    (mkState (browser st) (persistentPage st) (formCache st) (after_release st)
       (trace st ++ ELog "Shutting down server..." :: held_closes st ++ [EExit 0])
       (listening st) (Some 0),
     Resolved tt).
Proof.
  unfold release_resolves, after_release, after_page_close, held_closes, shutdown_inline.
  destruct st as [[b|] [p|] cache w tr l x]; simpl; unfold issue; simpl;
    intros [Hpage Hbrowser].
  - specialize (Hpage p eq_refl).
    destruct (exec (PageClose p) w) as [w1 r1]; simpl in *; subst r1; simpl.
    specialize (Hbrowser b eq_refl). unfold issue; simpl.
    destruct (exec (BrowserClose b) w1) as [w2 r2]; simpl in *; subst r2; simpl.
    rewrite <- !app_assoc. reflexivity.
  - specialize (Hbrowser b eq_refl).
    destruct (exec (BrowserClose b) w) as [w2 r2]; simpl in *; subst r2; simpl.
    rewrite <- !app_assoc. reflexivity.
  - specialize (Hpage p eq_refl).
    destruct (exec (PageClose p) w) as [w1 r1]; simpl in *; subst r1; simpl.
    rewrite <- !app_assoc. reflexivity.
  - rewrite <- !app_assoc. reflexivity.
Qed.

Lemma closes_resolve_release st : closes_resolve -> release_resolves st.
Proof. intros [Hpage Hbrowser]. split; intros; auto. Qed.

Lemma closing_cleanly_step pr a :
  closes_resolve -> closing_cleanly pr -> closing_cleanly (step pr a).
Proof.
  intros [Hpage Hbrowser] [Hx Hpool]. unfold step.
  destruct (exited (state pr)) eqn:Hexit; [split; [rewrite Hexit|]; assumption|].
  destruct a as [req | | i].
  - destruct (listening (state pr)); [| split; [rewrite Hexit|]; assumption].
    split; simpl; [rewrite Hexit; assumption|].
    apply Forall_app. split; [assumption|]. repeat constructor.
  - split; simpl; [rewrite Hexit; assumption|].
    apply Forall_app. split; [assumption|]. repeat constructor.
  - destruct (tasks pr !! i) as [tk|] eqn:Hi; [| split; [rewrite Hexit|]; assumption].
    assert (Hphase : task_phase (fun _ => True) (fun r => r = Resolved tt) tk).
    { eapply Forall_lookup_1; eassumption. }
    destruct (resume_task _ _ tk (state pr) Hphase) as (Hphase' & _ & _ & _ & Hx' & _);
      auto.
    destruct (resume tk (state pr)) as [st' tk']; simpl in *.
    split; simpl.
    + rewrite Hexit in Hx'. destruct Hx' as [-> | ->]; auto.
    + apply Forall_insert; assumption.
Qed.

Lemma closing_cleanly_schedule acts pr :
  closes_resolve -> closing_cleanly pr -> closing_cleanly (schedule pr acts).
Proof.
  intros Hc. revert pr. induction acts as [| a acts IH]; intros pr Hinv; simpl;
    [assumption|].
  apply IH. apply closing_cleanly_step; assumption.
Qed.

Lemma never_rejected (t : Prog W unit) e :
  shutdown_phase (fun r => r = Resolved tt) t -> t <> Throw e.
Proof.
  intros Hphase Heq. destruct Hphase as [| r -> | r -> | | e' He'].
  - unfold shutdown in Heq. simpl in Heq. discriminate Heq.
  - unfold at_page_close in Heq. simpl in Heq. discriminate Heq.
  - unfold at_browser_close in Heq. simpl in Heq. discriminate Heq.
  - discriminate Heq.
  - discriminate He'.
Qed.

(** C8 (as amended): [shutdown] calls [close] on the page if the
    reference is set, then on the browser if the reference is set, then
    closes readline and exits with code 0, provided the [close] calls it
    makes resolve; with both references null it makes no call and that
    outcome is unconditional.  It does not null the references, so a
    second invocation calls [close] again: where every [close] resolves,
    a second invocation in a row also ends without error in exit code 0,
    and however invocations overlap at their [await]s none is rejected
    and the only exit code is 0. *)
Theorem shutdown_closes_and_exits st :
  (release_resolves st -> run shutdown st = (shut_down st, Resolved tt)) /\
  (browser st = None -> persistentPage st = None ->
   run shutdown st =
     (mkState None None (formCache st) (world st)
        (trace st ++ [ELog "Shutting down server..."; ERlClose; EExit 0])
        (listening st) (Some 0),
      Resolved tt)) /\
  (closes_resolve ->
   run shutdown (shut_down st) = (shut_down (shut_down st), Resolved tt) /\
   (exited st = None ->
    forall acts,
      (exited (state (schedule (mkProc st []) acts)) = None \/
       exited (state (schedule (mkProc st []) acts)) = Some 0) /\
      forall i e, tasks (schedule (mkProc st []) acts) !! i <> Some (Shutdown (Throw e)))).
Proof.
  split; [apply run_shutdown|]. split.
  - intros Hb Hp. rewrite run_shutdown.
    + unfold shut_down, after_release, after_page_close, held_closes.
      rewrite Hb, Hp. reflexivity.
    + split; intros; congruence.
  - intros Hc. split; [apply run_shutdown, closes_resolve_release, Hc|].
    intros Hx acts.
    assert (Hinv : closing_cleanly (schedule (mkProc st []) acts)).
    { apply closing_cleanly_schedule; [exact Hc|]. split; [left; exact Hx | constructor]. }
    destruct Hinv as [Hexit Hpool]. split; [exact Hexit|].
    intros i e Hi. pose proof (Forall_lookup_1 _ _ _ _ Hpool Hi) as Hphase.
    simpl in Hphase. eapply never_rejected; [exact Hphase | reflexivity].
Qed.

(** *** The fetch handler, path by path *)

Lemma usable_url_passes req :
  negb (truthy (prop (query req) "url"))
  || negb (JsType_eqb (typeof (prop (query req) "url")) TyString) = false <->
  usable_url req.
Proof.
  unfold usable_url, prop. split.
  - destruct (query req !! "url") as [[| [|a s] | |]|]; simpl; intros Hok;
      try discriminate Hok.
    eexists. split; [reflexivity | discriminate].
  - intros (u & -> & Hu). apply valid_url_passes. exact Hu.
Qed.

Lemma not_authenticated st :
  ~ authenticated st -> browser st = None \/ persistentPage st = None.
Proof.
  unfold authenticated. intros Hno.
  destruct (browser st); [| left; reflexivity].
  destruct (persistentPage st); [| right; reflexivity].
  exfalso. apply Hno. split; eauto.
Qed.

(** Every run of the handler is one of the six paths. *)
Lemma run_handled req st :
  exists st' res,
    run (fetchFormHandler req fresh) st = (st', Resolved res) /\ handled req st st' res.
Proof.
  destruct (negb (truthy (prop (query req) "url"))
            || negb (JsType_eqb (typeof (prop (query req) "url")) TyString)) eqn:Hvalid.
  { exists st, bad_request. split.
    - apply run_handler_invalid. exact Hvalid.
    - apply handled_invalid. intros Hok%usable_url_passes. congruence. }
  apply usable_url_passes in Hvalid as (u & Hq & Hu).
  rewrite (handler_valid req u Hq Hu).
  destruct st as [[b|] [p|] cache w tr l x];
    try (exists (mkState (W := W) None (Some p) cache w tr l x), no_browser;
         split; [simpl; rewrite ?held_true, ?held_false; reflexivity
                | apply (handled_unready _ _ u); auto; intros [[? Hb] _]; discriminate Hb]);
    try (exists (mkState (W := W) (Some b) None cache w tr l x), no_browser;
         split; [simpl; rewrite ?held_true, ?held_false; reflexivity
                | apply (handled_unready _ _ u); auto; intros [_ [? Hp]]; discriminate Hp]);
    try (exists (mkState (W := W) None None cache w tr l x), no_browser;
         split; [simpl; rewrite ?held_true, ?held_false; reflexivity
                | apply (handled_unready _ _ u); auto; intros [[? Hb] _]; discriminate Hb]).
  simpl. rewrite ?held_true. simpl.
  destruct (cache !! u) as [html|] eqn:Hcache.
  - rewrite (Map_has_hit _ _ _ Hcache). simpl.
    eexists _, _. split.
    + unfold Map_get. rewrite Hcache. reflexivity.
    + apply (handled_hit req (mkState (Some b) (Some p) cache w tr l x) u html); auto. split; simpl; eauto.
  - rewrite (Map_has_miss _ _ Hcache). simpl. unfold issue; simpl.
    destruct (exec (Goto p u "domcontentloaded") w) as [w1 [[]|e]] eqn:Hgoto; simpl.
    2: { eexists _, _. split; [reflexivity|].
         rewrite <- !app_assoc.
         apply (handled_unreachable req (mkState (Some b) (Some p) cache w tr l x) u b p w1 e); auto. }
    unfold issue; simpl.
    destruct (exec (Content p) w1) as [w2 [html|e]] eqn:Hcontent; simpl.
    + eexists _, _. split; [reflexivity|]. rewrite <- !app_assoc.
      apply (handled_fetched req (mkState (Some b) (Some p) cache w tr l x) u b p w1 w2 html); auto.
    + eexists _, _. split; [reflexivity|]. rewrite <- !app_assoc.
      apply (handled_uncaptured req (mkState (Some b) (Some p) cache w tr l x) u b p w1 w2 e); auto.
Qed.

(** X1: a valid request whose URL is in the cache is answered 200 with
    the cached text as it is; the handler makes no call, so the outside
    world and the cache are as before, and the trace has one more log
    line. *)
Theorem hit_answers_from_cache req u html st :
  query req !! "url" = Some (QString u) -> u <> "" ->
  authenticated st ->
  formCache st !! u = Some html ->
  run (fetchFormHandler req fresh) st =
    (logged (ELog ("Cache hit for " ++ u)) st, Resolved (ok_html html)).
Proof.
  intros Hq Hu Hauth Hhit.
  rewrite run_advance, (advance_hit req u html st Hq Hu Hauth Hhit). reflexivity.
Qed.

(** X2: the handler's promise never rejects.  Whatever the request, the
    state and the outside world, it sends exactly one of the four
    answers of the endpoint, and it leaves the session references, the
    transport and the exit code alone. *)
Theorem handler_always_answers req st :
  exists st' res,
    run (fetchFormHandler req fresh) st = (st', Resolved res) /\
    (res = bad_request \/ res = no_browser \/ res = fetch_error \/
     exists html, res = ok_html html) /\
    same_process st st'.
Proof.
  destruct (run_handled req st) as (st' & res & Hrun & Hh).
  exists st', res. split; [exact Hrun|].
  destruct Hh; (split; [eauto 6 | repeat split]).
Qed.

(** X3: the handler changes the cache at one key at most, the URL it was
    asked for, and only when that key was absent; what it stores there is
    the text it answers with.  Every entry present before is still there
    with the same value. *)
Theorem handler_cache_frame req st k :
  formCache (fst (run (fetchFormHandler req fresh) st)) !! k = formCache st !! k \/
  (formCache st !! k = None /\
   query req !! "url" = Some (QString k) /\
   exists html,
     formCache (fst (run (fetchFormHandler req fresh) st)) !! k = Some html /\
     snd (run (fetchFormHandler req fresh) st) = Resolved (ok_html html)).
Proof.
  destruct (run_handled req st) as (st' & res & -> & Hh). simpl.
  destruct Hh as [| | | | | u b p w1 w2 html Hq Hu Hb Hp Hmiss Hgoto Hcontent];
    try (left; reflexivity).
  simpl. destruct (decide (u = k)) as [-> | Hne].
  - right. repeat split; auto. exists html. split; [apply lookup_insert_eq | reflexivity].
  - left. apply lookup_insert_ne. exact Hne.
Qed.

(** X4: an answer other than 200 leaves the cache exactly as it was: a
    failed navigation or capture is not remembered, so the next request
    for the same URL goes to the page again. *)
Theorem failures_cache_nothing req st st' res :
  run (fetchFormHandler req fresh) st = (st', Resolved res) ->
  statusCode res <> 200 ->
  formCache st' = formCache st.
Proof.
  intros Hrun Hstatus.
  destruct (run_handled req st) as (st0 & res0 & Hrun0 & Hh).
  rewrite Hrun in Hrun0. injection Hrun0 as <- <-.
  destruct Hh; try reflexivity; simpl in Hstatus; congruence.
Qed.

(** X5: the answer is 400 exactly when the [url] parameter is not a
    non-empty string.  Nothing else is checked: any non-empty string,
    whatever its scheme or syntax, passes the validation. *)
Theorem bad_request_iff_unusable req st :
  snd (run (fetchFormHandler req fresh) st) = Resolved bad_request <-> ~ usable_url req.
Proof.
  destruct (run_handled req st) as (st' & res & -> & Hh). simpl. split.
  - intros Hres. injection Hres as ->. intros (u' & Hq' & Hu').
    inversion Hh; subst; try discriminate.
    match goal with H : ~ usable_url _ |- _ => apply H end.
    exists u'. auto.
  - intros Hbad. destruct Hh; try reflexivity; exfalso; apply Hbad; eexists; eauto.
Qed.

(** X17: the answer is "Browser not initialized" exactly when the [url]
    is usable and a session reference is null; the cache and the outside
    world play no part. *)
Theorem guard_fires_iff_unauthenticated req st :
  snd (run (fetchFormHandler req fresh) st) = Resolved no_browser <->
  usable_url req /\ ~ authenticated st.
Proof.
  destruct (run_handled req st) as (st' & res & -> & Hh). simpl. split.
  - intros Hres. injection Hres as ->.
    inversion Hh; subst; try discriminate. split; [eexists; eauto | assumption].
  - intros [(u' & Hq' & Hu') Hno].
    destruct Hh as [Hbad | u Hq Hu Hnauth | u html Hq Hu Hauth Hhit
                   | u b p w1 e Hq Hu Hb Hp Hmiss Hgoto
                   | u b p w1 w2 e Hq Hu Hb Hp Hmiss Hgoto Hcontent
                   | u b p w1 w2 html Hq Hu Hb Hp Hmiss Hgoto Hcontent];
      try reflexivity.
    + exfalso. apply Hbad. exists u'. auto.
    + contradiction.
    + exfalso. apply Hno. split; eauto.
    + exfalso. apply Hno. split; eauto.
    + exfalso. apply Hno. split; eauto.
Qed.

(** X6: the handler goes to the page exactly when the request is valid,
    the session is authenticated and the URL is not cached: then it
    calls [goto] once, first, with the URL as given.  On every other
    path it makes no call at all and the outside world is untouched. *)
Theorem navigates_exactly_on_miss req st :
  (misses req st ->
   navigations (trace (fst (run (fetchFormHandler req fresh) st))) =
     S (navigations (trace st)) /\
   exists u p rest,
     query req !! "url" = Some (QString u) /\ persistentPage st = Some p /\
     trace (fst (run (fetchFormHandler req fresh) st)) =
       (trace st ++ ECall (Goto p u "domcontentloaded") :: rest)%list) /\
  (~ misses req st ->
   navigations (trace (fst (run (fetchFormHandler req fresh) st))) =
     navigations (trace st) /\
   world (fst (run (fetchFormHandler req fresh) st)) = world st).
Proof.
  destruct (run_handled req st) as (st' & res & -> & Hh). simpl.
  split.
  - intros (u0 & Hq0 & Hu0 & Hauth & Hmiss0).
    destruct Hh as [Hbad | u Hq Hu Hno | u html Hq Hu _ Hhit
                   | u b p w1 e Hq Hu Hb Hp Hmiss Hgoto
                   | u b p w1 w2 e Hq Hu Hb Hp Hmiss Hgoto Hcontent
                   | u b p w1 w2 html Hq Hu Hb Hp Hmiss Hgoto Hcontent].
    + exfalso. apply Hbad. exists u0. auto.
    + contradiction.
    + congruence.
    + simpl. split; [unfold navigations; rewrite filter_app, length_app; simpl; lia|].
      eauto 6.
    + simpl. split; [unfold navigations; rewrite filter_app, length_app; simpl; lia|].
      eauto 6.
    + simpl. split; [unfold navigations; rewrite filter_app, length_app; simpl; lia|].
      eauto 6.
  - intros Hno.
    destruct Hh as [Hbad | u Hq Hu Hnauth | u html Hq Hu _ Hhit
                   | u b p w1 e Hq Hu Hb Hp Hmiss Hgoto
                   | u b p w1 w2 e Hq Hu Hb Hp Hmiss Hgoto Hcontent
                   | u b p w1 w2 html Hq Hu Hb Hp Hmiss Hgoto Hcontent];
      try (split; reflexivity);
      try (exfalso; apply Hno; exists u; repeat split; eauto; fail).
    simpl. split; [| reflexivity].
    unfold navigations. rewrite filter_app, length_app. simpl. lia.
Qed.

(** *** Requests one after the other *)

Lemma handler_keeps_entry req st k v :
  formCache st !! k = Some v ->
  formCache (fst (run (fetchFormHandler req fresh) st)) !! k = Some v.
Proof.
  intros Hk. destruct (run_handled req st) as (st' & res & -> & Hh). simpl.
  destruct Hh as [| | | | | u b p w1 w2 html Hq Hu Hb Hp Hmiss Hgoto Hcontent];
    try exact Hk.
  simpl. rewrite lookup_insert_ne; [exact Hk | congruence].
Qed.

Lemma serve_keeps_entry reqs st k v :
  formCache st !! k = Some v -> formCache (fst (serve reqs st)) !! k = Some v.
Proof.
  revert st. induction reqs as [| req rest IH]; intros st Hk; simpl; [exact Hk|].
  pose proof (handler_keeps_entry req st k v Hk) as Hk1.
  destruct (run (fetchFormHandler req fresh) st) as [st1 r]. simpl in Hk1.
  specialize (IH st1 Hk1). destruct (serve rest st1) as [st2 rs]. exact IH.
Qed.

Lemma serve_keeps_session reqs st :
  authenticated st -> authenticated (fst (serve reqs st)).
Proof.
  intros [Hb Hp]. destruct (serve_total reqs st) as (st' & rs & -> & _ & _ & Hsame).
  destruct Hsame as (_ & _ & Hb' & Hp'). simpl. split; congruence.
Qed.

(** X7: served one at a time, requests never overwrite or drop a cache
    entry, and a request that was answered 200 gets the same bytes again
    after any number of other requests, from the cache and without a
    call to the page. *)
Theorem serve_repeats_first_answer req u html st st1 reqs :
  query req !! "url" = Some (QString u) ->
  run (fetchFormHandler req fresh) st = (st1, Resolved (ok_html html)) ->
  (forall k v, formCache st1 !! k = Some v ->
               formCache (fst (serve reqs st1)) !! k = Some v) /\
  run (fetchFormHandler req fresh) (fst (serve reqs st1)) =
    (logged (ELog ("Cache hit for " ++ u)) (fst (serve reqs st1)),
     Resolved (ok_html html)).
Proof.
  intros Hq Hrun.
  destruct (answered_ok req u html st st1 Hq Hrun) as (Hu & Hauth & Hcache).
  split; [intros k v; apply serve_keeps_entry|].
  rewrite run_advance, (advance_hit req u html); auto.
  - apply serve_keeps_session. exact Hauth.
  - apply serve_keeps_entry. exact Hcache.
Qed.

(** *** Startup and the session *)

Lemma same_serving_refl st : same_serving st st.
Proof. repeat split. Qed.

Lemma same_serving_trans st1 st2 st3 :
  same_serving st1 st2 -> same_serving st2 st3 -> same_serving st1 st3.
Proof. unfold same_serving. intuition congruence. Qed.

Lemma same_serving_issue T (c : Call T) st : same_serving st (fst (issue c st)).
Proof. unfold issue. destruct (exec c (world st)). repeat split. Qed.

Lemma run_same_serving {A} (t : Prog W A) st :
  respects same_serving t -> same_serving st (fst (run t st)).
Proof.
  apply run_respects.
  - apply same_serving_refl.
  - apply same_serving_trans.
  - apply same_serving_issue.
Qed.

Ltac serving_tac :=
  repeat first
    [ apply respects_bind; [| intros ?]
    | apply respects_try_catch; [| intros ?]
    | apply respects_call
    | apply respects_Ret
    | apply respects_Throw
    | apply respects_Await; intros ?
    | apply respects_Act; [intros ?; repeat split | intros ?]
    | match goal with
      | |- respects _ (match ?x with _ => _ end) => destruct x
      | |- respects _ (if ?x then _ else _) => destruct x
      end ].

Lemma initializeBrowser_same_serving env :
  respects (W := W) same_serving (initializeBrowser env).
Proof.
  unfold initializeBrowser, login, submit_identifier, verification_branch,
    password_branch, release.
  serving_tac.
Qed.

Lemma initialize_resolved_session env st st' :
  run (initializeBrowser env) st = (st', Resolved tt) ->
  authenticated st' /\
  exists tr, trace st' = (tr ++ [ELog "Logged in successfully"])%list.
Proof.
  intros H%initialize_resolved. unfold login, submit_identifier in H.
  destruct st as [b0 p0 cache w tr l x]. simpl in H. unfold issue in H; simpl in H.
  do 8 next_call H.
  match type of H with
  | context [isVerificationPrompt ?d] => destruct (isVerificationPrompt d)
  end; simpl in H; unfold issue in H; simpl in H.
  - next_call H.
    match type of H with
    | context [match ?o with Some _ => _ | None => _ end] => destruct o as [option|]
    end; simpl in H; [| discriminate H].
    unfold issue in H; simpl in H.
    do 7 next_call H.
    injection H as <-. split; [split; simpl; eauto | simpl; eauto].
  - do 3 next_call H.
    injection H as <-. split; [split; simpl; eauto | simpl; eauto].
Qed.

(** How the module-level code ends: listening on a logged-in session, or
    exited with code 1. *)
Lemma startup_cases env (w : W) :
  (exists st1,
     run (initializeBrowser env) (boot w) = (st1, Resolved tt) /\
     startup env w =
       mkState (browser st1) (persistentPage st1) (formCache st1) (world st1)
         (trace st1 ++ [EListen port; ELog "Server running on http://localhost:3000"])
         true (exited st1)) \/
  (exists st2 e,
     run (initializeBrowser env) (boot w) = (st2, Rejected e) /\
     startup env w =
       mkState (browser st2) (persistentPage st2) (formCache st2) (world st2)
         (trace st2 ++ [EError "Server failed to start:" e; EExit 1])
         (listening st2) (Some 1)).
Proof.
  unfold startup, main, startServer. rewrite run_try_catch, run_bind.
  destruct (run (initializeBrowser env) (boot w)) as [st1 [[]|e]] eqn:Hinit.
  - left. exists st1. split; [reflexivity|]. simpl. rewrite <- app_assoc. reflexivity.
  - right. exists st1, e. split; [reflexivity|]. simpl. rewrite <- app_assoc. reflexivity.
Qed.

Lemma no_listen_call_refl st : no_listen_call st st.
Proof. exists []. split; [rewrite app_nil_r|]; reflexivity. Qed.

Lemma no_listen_call_trans st1 st2 st3 :
  no_listen_call st1 st2 -> no_listen_call st2 st3 -> no_listen_call st1 st3.
Proof.
  intros (n1 & H1 & Hq1) (n2 & H2 & Hq2). exists (n1 ++ n2)%list. split.
  - rewrite H2, H1, app_assoc. reflexivity.
  - rewrite existsb_app, Hq1, Hq2. reflexivity.
Qed.

Lemma no_listen_call_issue T (c : Call T) st : no_listen_call st (fst (issue c st)).
Proof.
  unfold issue. destruct (exec c (world st)). exists [ECall c]. split; reflexivity.
Qed.

Lemma run_no_listen_call {A} (t : Prog W A) st :
  respects no_listen_call t -> no_listen_call st (fst (run t st)).
Proof.
  apply run_respects.
  - apply no_listen_call_refl.
  - apply no_listen_call_trans.
  - apply no_listen_call_issue.
Qed.

Ltac no_listen_tac :=
  repeat first
    [ apply respects_bind; [| intros ?]
    | apply respects_try_catch; [| intros ?]
    | apply respects_call
    | apply respects_Ret
    | apply respects_Throw
    | apply respects_Await; intros ?
    | apply respects_Act;
        [ intros ?; first [ exists []; split; [simpl; rewrite app_nil_r |]; reflexivity
                          | eexists [_]; split; reflexivity ]
        | intros ? ]
    | match goal with
      | |- respects _ (match ?x with _ => _ end) => destruct x
      | |- respects _ (if ?x then _ else _) => destruct x
      end ].

(** Nothing in [initializeBrowser], its [catch] included, calls
    [app.listen]. *)
Lemma initializeBrowser_no_listen_call env :
  respects (W := W) no_listen_call (initializeBrowser env).
Proof.
  unfold initializeBrowser, login, submit_identifier, verification_branch,
    password_branch, release.
  no_listen_tac.
Qed.

(** X8: the module-level code calls [app.listen] exactly when
    [initializeBrowser] resolved, and then once, on port 3000, right
    after the login.  At the call both references are set, the cache is
    empty, the process has not exited, nothing is listening yet, and the
    last line logged is the login's success line.  A failed login never
    reaches the call.  (What the call itself leads to, a bound port or an
    address in use, is not part of the statement.) *)
Theorem listen_called_exactly_after_login env (w : W) :
  (existsb is_listen (trace (startup env w)) = true <->
   exists st1, run (initializeBrowser env) (boot w) = (st1, Resolved tt)) /\
  (forall st1, run (initializeBrowser env) (boot w) = (st1, Resolved tt) ->
   authenticated st1 /\
   exited st1 = None /\
   formCache st1 = ∅ /\
   listening st1 = false /\
   existsb is_listen (trace st1) = false /\
   (exists tr, trace st1 = (tr ++ [ELog "Logged in successfully"])%list) /\
   exists rest,
     trace (startup env w) = (trace st1 ++ EListen port :: rest)%list /\
     existsb is_listen rest = false).
Proof.
  pose proof (run_same_serving _ (boot w) (initializeBrowser_same_serving env))
    as (Hcache & Hl & Hx).
  pose proof (run_no_listen_call _ (boot w) (initializeBrowser_no_listen_call env))
    as (new & Hnew & Hquiet).
  destruct (startup_cases env w) as [(st1 & Hinit & ->) | (st2 & e & Hinit & ->)];
    rewrite Hinit in Hcache, Hl, Hx, Hnew; simpl in Hcache, Hl, Hx, Hnew;
    cbn [browser persistentPage formCache world trace listening exited].
  - split.
    + split; [eauto|]. intros _. rewrite existsb_app. simpl. apply orb_true_r.
    + intros st1' Hres. rewrite Hinit in Hres. injection Hres as <-.
      destruct (initialize_resolved_session env _ _ Hinit) as (Hauth & tr & Htr).
      split; [exact Hauth|]. split; [exact Hx|]. split; [exact Hcache|].
      split; [exact Hl|]. split; [rewrite Hnew; exact Hquiet|].
      split; [exists tr; exact Htr|].
      exists [ELog "Server running on http://localhost:3000"]. split; reflexivity.
  - split.
    + split.
      * rewrite existsb_app, Hnew, Hquiet. simpl. discriminate.
      * intros (st1 & Hres). rewrite Hres in Hinit. discriminate.
    + intros st1 Hres. rewrite Hres in Hinit. discriminate.
Qed.

(** *** The guard after startup *)

Lemma entered_answer req st res :
  authenticated st ->
  snd (advance (fetchFormHandler req fresh) st) = Ret res ->
  res <> no_browser.
Proof.
  intros Hauth Hadv.
  destruct (run_handled req st) as (st' & res' & Hrun & Hh).
  rewrite run_advance, Hadv in Hrun. simpl in Hrun. injection Hrun as _ ->.
  destruct Hh; try discriminate. contradiction.
Qed.

Lemma at_goto_answer u r st res :
  snd (advance (at_goto u fresh r) st) = Ret res -> res = fetch_error.
Proof.
  unfold at_goto. destruct r as [[]|e]; simpl.
  2: { intros H. injection H as <-. reflexivity. }
  destruct st as [b [p|] cache w tr l x]; simpl.
  2: { intros H. injection H as <-. reflexivity. }
  unfold issue; simpl. destruct (exec (Content p) w) as [w1 [html|e]]; simpl;
    intros H; discriminate H.
Qed.

Lemma at_content_answer u r st res :
  snd (advance (at_content u fresh r) st) = Ret res ->
  res = fetch_error \/ exists html, res = ok_html html.
Proof.
  unfold at_content. destruct r as [html|e]; simpl; intros H; injection H as <-.
  - right. exists html. reflexivity.
  - left. reflexivity.
Qed.

Lemma resume_never_unready tk st :
  task_phase (fun _ => True) (fun _ => True) tk ->
  authenticated st ->
  response_of tk <> Some no_browser ->
  response_of (snd (resume tk st)) <> Some no_browser.
Proof.
  intros Hphase Hauth Hold. destruct tk as [t | t]; simpl in *.
  2: { destruct (advance t st). simpl. discriminate. }
  destruct Hphase as [req | u r _ | u r _ | res].
  - pose proof (entered_answer req st) as Hans.
    destruct (advance (fetchFormHandler req fresh) st) as [st' t']. simpl in *.
    destruct t'; try discriminate. intros H. injection H as ->.
    eapply Hans; eauto.
  - pose proof (at_goto_answer u r st) as Hans.
    destruct (advance (at_goto u fresh r) st) as [st' t']. simpl in *.
    destruct t'; try discriminate. intros H. injection H as ->.
    specialize (Hans _ eq_refl). discriminate Hans.
  - pose proof (at_content_answer u r st) as Hans.
    destruct (advance (at_content u fresh r) st) as [st' t']. simpl in *.
    destruct t'; try discriminate. intros H. injection H as ->.
    destruct (Hans _ eq_refl) as [Hf | [html Hok]]; discriminate.
  - simpl. exact Hold.
Qed.

Lemma serving_step pr a : serving pr -> serving (step pr a).
Proof.
  intros (Hauth & Hwf & Hans). unfold step.
  destruct (exited (state pr)); [repeat split; try assumption; apply Hauth|].
  destruct a as [req | | i].
  - destruct (listening (state pr)); [| repeat split; try assumption; apply Hauth].
    split; [exact Hauth|]. split; simpl.
    + apply Forall_app. split; [exact Hwf|]. repeat constructor.
    + apply Forall_app. split; [exact Hans|]. repeat constructor.
      unfold fetchFormHandler.
      destruct (negb _ || _); simpl; discriminate.
  - split; [exact Hauth|]. split; simpl.
    + apply Forall_app. split; [exact Hwf|]. repeat constructor.
    + apply Forall_app. split; [exact Hans|]. repeat constructor. discriminate.
  - destruct (tasks pr !! i) as [tk|] eqn:Hi;
      [| repeat split; try assumption; apply Hauth].
    pose proof (Forall_lookup_1 _ _ _ _ Hwf Hi) as Hphase.
    pose proof (Forall_lookup_1 _ _ _ _ Hans Hi) as Hold.
    destruct (resume_task _ _ tk (state pr) Hphase) as (Hphase' & Hb & Hp & _);
      try (intros; exact I).
    pose proof (resume_never_unready tk (state pr) Hphase Hauth Hold) as Hnew.
    destruct (resume tk (state pr)) as [st' tk']. simpl in *.
    split; [| split; apply Forall_insert; assumption].
    destruct Hauth as [Hb0 Hp0]. split; simpl; congruence.
Qed.

Lemma serving_schedule acts pr : serving pr -> serving (schedule pr acts).
Proof.
  revert pr. induction acts as [| a acts IH]; intros pr Hinv; simpl; [assumption|].
  apply IH. apply serving_step. assumption.
Qed.

(** X9: in a process started by the module-level code, no request is
    ever answered "Browser not initialized", however requests and
    signals interleave: the server listens only once both references are
    set, and no handler resets them afterwards. *)
Theorem guard_never_fires_after_startup env (w : W) acts i tk :
  tasks (schedule (mkProc (startup env w) []) acts) !! i = Some tk ->
  response_of tk <> Some no_browser.
Proof.
  intros Hi.
  destruct (startup_cases env w) as [(st1 & Hinit & Hst) | (st2 & e & Hinit & Hst)].
  - assert (Hinv : serving (schedule (mkProc (startup env w) []) acts)).
    { apply serving_schedule. rewrite Hst.
      destruct (initialize_resolved_session env _ _ Hinit) as (Hauth & _).
      split; [exact Hauth|]. split; constructor. }
    destruct Hinv as (_ & _ & Hans). exact (Forall_lookup_1 _ _ _ _ Hans Hi).
  - rewrite (schedule_exited _ 1) in Hi; [discriminate Hi|].
    rewrite Hst. reflexivity.
Qed.

(** *** The edges of the login *)

(** X10: when [puppeteer.launch] itself rejects, nothing is held: the
    [catch] makes no [close] call, both references stay null, and the
    caller receives the launch error, whatever the driver does next. *)
Theorem launch_failure_has_nothing_to_release env st w1 e :
  browser st = None -> persistentPage st = None ->
  exec (Launch true launch_args) (world st) = (w1, Rejected e) ->
  run (initializeBrowser env) st =
    (mkState None None (formCache st) w1
       (trace st ++ [ELog "Initializing browser and logging in...";
                     ECall (Launch true launch_args);
                     EError "Failed to initialize browser:" e])
       (listening st) (exited st),
     Rejected e).
Proof.
  intros Hb Hp Hlaunch. unfold initializeBrowser, login, submit_identifier.
  destruct st as [b0 p0 cache w tr l x]; simpl in *; subst b0 p0.
  unfold issue; simpl. rewrite Hlaunch. simpl.
  rewrite <- !app_assoc. reflexivity.
Qed.

(** X11: when [browser.newPage] rejects, the browser is held and the page
    is not: the [catch] closes the browser only, and once that resolves
    both references are null and the caller receives the error of
    [newPage]. *)
Theorem new_page_failure_closes_browser_only env st b w1 w2 w3 e :
  persistentPage st = None ->
  exec (Launch true launch_args) (world st) = (w1, Resolved b) ->
  exec (NewPage b) w1 = (w2, Rejected e) ->
  exec (BrowserClose b) w2 = (w3, Resolved tt) ->
  run (initializeBrowser env) st =
    (mkState None None (formCache st) w3
       (trace st ++ [ELog "Initializing browser and logging in...";
                     ECall (Launch true launch_args);
                     ECall (NewPage b);
                     EError "Failed to initialize browser:" e;
                     ECall (BrowserClose b)])
       (listening st) (exited st),
     Rejected e).
Proof.
  intros Hp Hlaunch Hpage Hclose. unfold initializeBrowser, login, submit_identifier.
  destruct st as [b0 p0 cache w tr l x]; simpl in *; subst p0.
  unfold issue; simpl. rewrite Hlaunch. simpl.
  unfold issue; simpl. rewrite Hpage. simpl.
  unfold issue; simpl. rewrite Hclose. simpl.
  rewrite <- !app_assoc. reflexivity.
Qed.

(** X12: when the detector finds a verification prompt and the page has
    no email-code option, the login stops with "Gmail verification option
    not found." right after looking for the option: nothing is clicked,
    the human is not asked for a code, and no secret is typed. *)
Theorem missing_option_stops_before_asking env st st1 st2 document p w3 :
  run (submit_identifier env) st = (st1, Resolved tt) ->
  run (on_page Evaluate) st1 = (st2, Resolved document) ->
  isVerificationPrompt document = true ->
  persistentPage st2 = Some p ->
  exec (Dollar p gmailOptionSelector) (world st2) = (w3, Resolved None) ->
  run (login env) st =
    (mkState (browser st2) (persistentPage st2) (formCache st2) w3
       (trace st2 ++
        [ELog "Verification prompt detected. Attempting Gmail code verification...";
         ECall (Dollar p gmailOptionSelector)])
       (listening st2) (exited st2),
     Rejected (mkExn "Gmail verification option not found.")).
Proof.
  intros Hid Heval Hdet Hp Hdollar. unfold login.
  rewrite run_bind, Hid, run_bind, Heval, Hdet, run_bind.
  unfold verification_branch.
  destruct st2 as [b2 p2 cache w tr l x];
    cbn [browser persistentPage formCache world trace listening exited] in *; subst p2.
  simpl. unfold issue; simpl.
  match goal with
  | |- context [exec (Dollar p ?selector) w] =>
      change (exec (Dollar p selector) w) with (exec (Dollar p gmailOptionSelector) w)
  end.
  rewrite Hdollar. simpl. rewrite <- !app_assoc. reflexivity.
Qed.

Opaque gmailOptionSelector codeInputSelector.

(** X16: in the verification branch the text typed into the code field is
    the answer of [rl.question], as it came: once the option is found and
    the code field has appeared, the call that follows the prompt is
    [type] on the code field with that very string. *)
Theorem typed_code_is_the_answer st p option code w1 w2 w3 w4 w5 :
  persistentPage st = Some p ->
  exec (Dollar p gmailOptionSelector) (world st) = (w1, Resolved (Some option)) ->
  exec (ElementClick option) w1 = (w2, Resolved tt) ->
  exec (WaitForNavigation p "domcontentloaded") w2 = (w3, Resolved tt) ->
  exec (WaitForSelector p codeInputSelector true None) w3 = (w4, Resolved tt) ->
  exec (Question "Enter the verification code sent to your Gmail: ") w4 =
    (w5, Resolved code) ->
  exists rest,
    trace (fst (run verification_branch st)) =
      (trace st ++
       [ELog "Verification prompt detected. Attempting Gmail code verification...";
        ECall (Dollar p gmailOptionSelector);
        ECall (ElementClick option);
        ECall (WaitForNavigation p "domcontentloaded");
        ELog "Selected Gmail verification. Check your email for the code.";
        ECall (WaitForSelector p codeInputSelector true None);
        ECall (Question "Enter the verification code sent to your Gmail: ");
        ECall (TypeText p codeInputSelector code)] ++ rest)%list.
Proof.
  intros Hp Hdollar Hclick Hnav Hfield Hask. unfold verification_branch.
  destruct st as [b0 p0 cache w tr l x];
    cbn [browser persistentPage formCache world trace listening exited] in *; subst p0.
  simpl. unfold issue; simpl. rewrite Hdollar. simpl.
  unfold issue; simpl. rewrite Hclick. simpl.
  unfold issue; simpl. rewrite Hnav. simpl.
  unfold issue; simpl. rewrite Hfield. simpl.
  unfold promptForCode, call. simpl. unfold issue; simpl. rewrite Hask. simpl.
  unfold issue; simpl.
  destruct (exec (TypeText p codeInputSelector code) w5) as [w6 [[]|e6]]; simpl.
  2: { exists []. simpl. rewrite <- !app_assoc. reflexivity. }
  unfold issue; simpl.
  destruct (exec (Click p _) w6) as [w7 [[]|e7]]; simpl.
  2: { eexists. rewrite <- !app_assoc. simpl. reflexivity. }
  unfold issue; simpl.
  destruct (exec (WaitForNavigation p _) w7) as [w8 [[]|e8]]; simpl;
    eexists; rewrite <- !app_assoc; simpl; reflexivity.
Qed.

Transparent gmailOptionSelector codeInputSelector.

(** *** Shutdown, whatever the driver answers *)

(** X13: [shutdown] has two outcomes only: it resolves and the exit code
    is 0, or a [close] rejected, the handler's promise rejects and the
    exit code is left as it was.  In both it leaves the two references
    (it never nulls them), the cache and the transport as they were. *)
Theorem shutdown_exits_zero_or_rejects st :
  same_session st (fst (run shutdown st)) /\
  ((snd (run shutdown st) = Resolved tt /\ exited (fst (run shutdown st)) = Some 0) \/
   (exists e, snd (run shutdown st) = Rejected e /\
              exited (fst (run shutdown st)) = exited st)).
Proof.
  unfold shutdown.
  destruct st as [[b|] [p|] cache w tr l x]; simpl; unfold issue; simpl.
  - destruct (exec (PageClose p) w) as [w1 [[]|e1]]; simpl.
    + unfold issue; simpl.
      destruct (exec (BrowserClose b) w1) as [w2 [[]|e2]]; simpl;
        (split; [repeat split | eauto]).
    + split; [repeat split | eauto].
  - destruct (exec (BrowserClose b) w) as [w2 [[]|e2]]; simpl;
      (split; [repeat split | eauto]).
  - destruct (exec (PageClose p) w) as [w1 [[]|e1]]; simpl;
      (split; [repeat split | eauto]).
  - split; [repeat split | eauto].
Qed.


(** *** The earlier revision *)

Lemma earlier_initialize_resolved env st st' :
  run (Earlier.initializeBrowser env) st = (st', Resolved tt) ->
  run (Earlier.login env) st = (st', Resolved tt).
Proof.
  unfold Earlier.initializeBrowser. rewrite run_try_catch.
  destruct (run (Earlier.login env) st) as [st1 [[]|e]]; [auto|].
  destruct (run_release e st1) as (? & ? & -> & _). discriminate.
Qed.

(** X15: in the earlier revision a login that succeeds has made exactly
    the password steps, in order: it waits for the password prompt with
    no detector, always types the secret, and never asks the human for a
    code. *)
Theorem earlier_login_is_password_only env st st' :
  run (Earlier.initializeBrowser env) st = (st', Resolved tt) ->
  exists b p,
    browser st' = Some b /\ persistentPage st' = Some p /\
    trace st' = (trace st ++ earlier_events env b p)%list /\
    existsb asks_human (earlier_events env b p) = false /\
    existsb submits_password (earlier_events env b p) = true.
Proof.
  intros H%earlier_initialize_resolved. unfold Earlier.login in H.
  destruct st as [b0 p0 cache w tr l x]. simpl in H. unfold issue in H; simpl in H.
  do 10 next_call H.
  injection H as <-. simpl.
  eexists _, _. split; [reflexivity|]. split; [reflexivity|].
  split; [rewrite <- !app_assoc; reflexivity|]. split; reflexivity.
Qed.

End Properties.

(** * Concrete runs *)

Section Healthy.

#[local] Existing Instance healthy_stub.

Lemma miss_stores_own_document_without_overlap_witness :
  run (fetchFormHandler (url_request form_url) fresh) (state queued) =
    (mkState (Some (BrowserRef 0)) (Some (PageRef 0))
       (<[form_url := "<html>https://example.com/form**</html>"]>
          (formCache (state queued)))
       (mkBrowsing form_url 2)
       (trace (state queued) ++
        [ECall (Goto (PageRef 0) form_url "domcontentloaded");
         ECall (Content (PageRef 0));
         ELog ("Fetched and cached " ++ form_url)])
       (listening (state queued)) None,
     Resolved (ok_html "<html>https://example.com/form**</html>")) /\
  schedule queued [Resume 1%nat; Resume 1%nat; Resume 1%nat] =
    mkProc
      (mkState (Some (BrowserRef 0)) (Some (PageRef 0))
         (<[form_url := "<html>https://example.com/form**</html>"]>
            (formCache (state queued)))
         (mkBrowsing form_url 2)
         (trace (state queued) ++
          [ECall (Goto (PageRef 0) form_url "domcontentloaded");
           ECall (Content (PageRef 0));
           ELog ("Fetched and cached " ++ form_url)])
         (listening (state queued)) None)
      (<[1%nat := Fetch (Ret (ok_html "<html>https://example.com/form**</html>"))]>
         (tasks queued)).
Proof.
  refine (miss_stores_own_document_without_overlap (url_request form_url) form_url
            queued 1%nat (BrowserRef 0) (PageRef 0)
            (mkBrowsing form_url 2) (mkBrowsing form_url 2)
            "<html>https://example.com/form**</html>" _ _ _ _ _ _ _ _ _).
  - vm_compute. reflexivity.
  - reflexivity.
  - vm_compute. reflexivity.
  - discriminate.
  - vm_compute. reflexivity.
  - vm_compute. reflexivity.
  - vm_compute. reflexivity.
  - vm_compute. reflexivity.
  - vm_compute. reflexivity.
Defined.

(** C1, as stated, fails when another handler uses the page between the
    navigation and the capture.  The form URL is absent from the cache,
    the session is authenticated, and the navigation to it and the
    capture both resolve: run with nothing in between, the fetch stores
    and answers the form's document.  With a request for another URL
    navigating in between, the same fetch stores under the form URL, and
    answers with status 200, the HTML of the other document. *)
Lemma overlapped_miss_stores_other_document :
  let later :=
    schedule (mkProc served [])
      [Arrive (url_request form_url); Arrive (url_request other_url);
       Resume 0%nat; Resume 1%nat; Resume 0%nat; Resume 0%nat] in
  formCache served !! form_url = None /\
  browser served = Some (BrowserRef 0) /\ persistentPage served = Some (PageRef 0) /\
  exec (Goto (PageRef 0) form_url "domcontentloaded") (world served) =
    (mkBrowsing form_url 2, Resolved tt) /\
  snd (run (fetchFormHandler (url_request form_url) fresh) served) =
    Resolved (ok_html "<html>https://example.com/form**</html>") /\
  (tasks later !! 0%nat) ≫= response_of =
    Some (ok_html "<html>https://example.com/other***</html>") /\
  formCache (state later) !! form_url = Some "<html>https://example.com/other***</html>".
Proof. vm_compute. repeat split. Qed.

Lemma missing_or_non_string_url_rejected_witness :
  run (fetchFormHandler (mkRequest {[ "url" := QArray [QString "a"; QString "b"] ]}) fresh)
      served = (served, Resolved bad_request) /\
  advance (fetchFormHandler (mkRequest {[ "url" := QArray [QString "a"; QString "b"] ]}) fresh)
      served = (served, Ret bad_request).
Proof.
  apply missing_or_non_string_url_rejected. right.
  exists (QArray [QString "a"; QString "b"]). split.
  - vm_compute. reflexivity.
  - discriminate.
Defined.

Lemma empty_url_rejected_witness :
  run (fetchFormHandler (url_request "") fresh) served = (served, Resolved bad_request).
Proof.
  apply empty_url_rejected. vm_compute. reflexivity.
Defined.

Lemma unauthenticated_session_rejected_witness :
  formCache signed_out !! form_url = Some "<html>cached</html>" /\
  run (fetchFormHandler (url_request form_url) fresh) signed_out =
    (signed_out, Resolved no_browser).
Proof.
  split.
  - vm_compute. reflexivity.
  - apply (unauthenticated_session_rejected (url_request form_url) form_url signed_out).
    + vm_compute. reflexivity.
    + discriminate.
    + left. reflexivity.
Defined.

Lemma fetch_failure_is_local_witness :
  exists st',
    run (fetchFormHandler (url_request down_url) fresh) served = (st', Resolved fetch_error) /\
    same_process served st' /\
    formCache st' = formCache served /\
    forall reqs, exists st'' rs,
      serve reqs st' = (st'', rs) /\ length rs = length reqs /\
      Forall (fun r => exists res, r = Resolved res /\ is_Some (sent res)) rs /\
      same_process served st''.
Proof.
  apply (fetch_failure_is_local (url_request down_url) down_url served
           (BrowserRef 0) (PageRef 0)).
  - vm_compute. reflexivity.
  - discriminate.
  - vm_compute. reflexivity.
  - vm_compute. reflexivity.
  - vm_compute. reflexivity.
  - left. exists (world served), (mkExn "net::ERR_CONNECTION_REFUSED").
    vm_compute. reflexivity.
Defined.

Lemma first_fetch_wins_without_overlap_witness :
  let now :=
    state (schedule
             (mkProc fetched [Fetch (at_goto other_url fresh (Resolved tt))])
             [Arrive (url_request form_url); Resume 0%nat; Resume 0%nat; Resume 1%nat]) in
  formCache now !! form_url = Some "<html>https://example.com/form**</html>" /\
  forall req', query req' !! "url" = Some (QString form_url) ->
    advance (fetchFormHandler req' fresh) now =
      (logged (ELog ("Cache hit for " ++ form_url)) now,
       Ret (ok_html "<html>https://example.com/form**</html>")) /\
    run (fetchFormHandler req' fresh) now =
      (logged (ELog ("Cache hit for " ++ form_url)) now,
       Resolved (ok_html "<html>https://example.com/form**</html>")) /\
    world (logged (ELog ("Cache hit for " ++ form_url)) now) = world now /\
    navigations (trace (logged (ELog ("Cache hit for " ++ form_url)) now)) =
      navigations (trace now).
Proof.
  apply (first_fetch_wins_without_overlap (url_request form_url) form_url
           "<html>https://example.com/form**</html>" served fetched).
  - vm_compute. reflexivity.
  - vm_compute. reflexivity.
  - repeat constructor. discriminate.
Defined.

(** C2, as stated, fails when two fetches of one URL overlap.  Request A
    navigates and issues its capture; request B arrives, misses the cache
    too and navigates; A stores its HTML and answers 200: the first
    successful fetch.  Then B captures the document of its own load,
    stores it over A's entry and answers; a third request, arrived after
    both, makes no navigation and is answered from the cache with HTML
    that differs from the first response. *)
Lemma overlapping_fetches_overwrite :
  let first :=
    schedule (mkProc served [])
      [Arrive (url_request form_url); Resume 0%nat; Resume 0%nat;
       Arrive (url_request form_url); Resume 1%nat; Resume 0%nat] in
  let last :=
    schedule first
      [Resume 1%nat; Resume 1%nat; Arrive (url_request form_url); Resume 2%nat] in
  (tasks first !! 0%nat) ≫= response_of =
    Some (ok_html "<html>https://example.com/form**</html>") /\
  formCache (state first) !! form_url = Some "<html>https://example.com/form**</html>" /\
  formCache (state last) !! form_url = Some "<html>https://example.com/form***</html>" /\
  (tasks last !! 2%nat) ≫= response_of =
    Some (ok_html "<html>https://example.com/form***</html>") /\
  navigations (trace (state last)) = navigations (trace (state first)).
Proof. vm_compute. repeat split. Qed.

Lemma shared_page_interleaving_witness :
  let in_flight :=
    schedule (mkProc served [])
      [Arrive (url_request form_url); Arrive (url_request other_url);
       Resume 0%nat; Resume 1%nat] in
  let later := schedule in_flight [Resume 0%nat; Resume 0%nat] in
  tasks in_flight =
    [Fetch (at_goto form_url fresh (Resolved tt));
     Fetch (at_goto other_url fresh (Resolved tt))] /\
  tasks later !! 0%nat =
    Some (Fetch (Ret (ok_html "<html>https://example.com/other***</html>"))) /\
  formCache (state later) !! form_url = Some "<html>https://example.com/other***</html>" /\
  formCache (state later) !! other_url = None.
Proof.
  apply (shared_page_interleaving served (BrowserRef 0) (PageRef 0) form_url other_url
           (mkBrowsing form_url 2) (mkBrowsing other_url 3) (mkBrowsing other_url 3)).
  - vm_compute. reflexivity.
  - vm_compute. reflexivity.
  - vm_compute. reflexivity.
  - vm_compute. reflexivity.
  - discriminate.
  - discriminate.
  - discriminate.
  - vm_compute. reflexivity.
  - vm_compute. reflexivity.
  - vm_compute. reflexivity.
  - vm_compute. reflexivity.
  - vm_compute. reflexivity.
Defined.

Lemma healthy_closes_resolve : closes_resolve.
Proof. split; intros; reflexivity. Qed.

Lemma shutdown_closes_and_exits_witness :
  run shutdown served = (shut_down served, Resolved tt) /\
  exited (shut_down served) = Some 0 /\
  run shutdown (shut_down served) = (shut_down (shut_down served), Resolved tt) /\
  forall acts,
    (exited (state (schedule (mkProc served []) acts)) = None \/
     exited (state (schedule (mkProc served []) acts)) = Some 0) /\
    forall i e, tasks (schedule (mkProc served []) acts) !! i <> Some (Shutdown (Throw e)).
Proof.
  destruct (shutdown_closes_and_exits served) as (Honce & _ & Hmore).
  destruct (Hmore healthy_closes_resolve) as (Htwice & Hoverlap).
  split; [apply Honce, closes_resolve_release, healthy_closes_resolve|].
  split; [reflexivity|]. split; [exact Htwice|].
  apply Hoverlap. reflexivity.
Defined.

(** The direct branch: no challenge marker, the secret is submitted. *)
Example password_alone_logs_in :
  run (initializeBrowser stub_env) (boot blank) = (initialized healthy, Resolved tt) /\
  trace (initialized healthy) =
    (preamble stub_env (BrowserRef 0) (PageRef 0) ++
     password_events stub_env (PageRef 0) ++
     [ELog "Logged in successfully"])%list.
Proof. vm_compute. split; reflexivity. Qed.

End Healthy.

Section Challenged.

#[local] Existing Instance challenged_stub.

Lemma authenticated_by_exactly_one_branch_witness :
  exists b p branch,
    browser (initialized challenged) = Some b /\
    persistentPage (initialized challenged) = Some p /\
    trace (initialized challenged) =
      (trace (boot blank) ++ preamble stub_env b p ++ branch ++
       [ELog "Logged in successfully"])%list /\
    (branch = password_events stub_env p \/
     exists option code, branch = challenge_events p option code) /\
    existsb submits_password branch = negb (existsb submits_code branch) /\
    existsb asks_human branch = existsb submits_code branch /\
    existsb is_failure (preamble stub_env b p ++ branch) = false.
Proof.
  apply authenticated_by_exactly_one_branch. vm_compute. reflexivity.
Defined.

(** Scenario 4 of the specification: a challenge marker, the human types
    123456, and the session is logged in through the verification
    branch. *)
Example emailed_code_logs_in :
  run (initializeBrowser stub_env) (boot blank) = (initialized challenged, Resolved tt) /\
  trace (initialized challenged) =
    (preamble stub_env (BrowserRef 0) (PageRef 0) ++
     challenge_events (PageRef 0) (ElementRef 2) "123456" ++
     [ELog "Logged in successfully"])%list.
Proof. vm_compute. split; reflexivity. Qed.

Lemma typed_code_is_the_answer_witness :
  exists rest,
    trace (fst (run verification_branch (prompted challenged))) =
      (trace (prompted challenged) ++
       [ELog "Verification prompt detected. Attempting Gmail code verification...";
        ECall (Dollar (PageRef 0) gmailOptionSelector);
        ECall (ElementClick (ElementRef 2));
        ECall (WaitForNavigation (PageRef 0) "domcontentloaded");
        ELog "Selected Gmail verification. Check your email for the code.";
        ECall (WaitForSelector (PageRef 0) codeInputSelector true None);
        ECall (Question "Enter the verification code sent to your Gmail: ");
        ECall (TypeText (PageRef 0) codeInputSelector "123456")] ++ rest)%list.
Proof.
  apply (typed_code_is_the_answer (prompted challenged) (PageRef 0) (ElementRef 2) "123456"
           (mkBrowsing "https://accounts.google.com/" 1)
           (mkBrowsing "https://accounts.google.com/" 1)
           (mkBrowsing "https://accounts.google.com/" 1)
           (mkBrowsing "https://accounts.google.com/" 1)
           (mkBrowsing "https://accounts.google.com/" 1));
    vm_compute; reflexivity.
Defined.

End Challenged.

Section Offline.

#[local] Existing Instance offline_stub.

Lemma initialize_failure_aborts_startup_witness :
  (exists st2 e',
     run (initializeBrowser stub_env) (boot blank) = (st2, Rejected e') /\
     (release_resolves (login_stopped offline) ->
      e' = mkExn "net::ERR_CONNECTION_REFUSED" /\
      browser st2 = None /\ persistentPage st2 = None /\
      trace st2 =
        (trace (login_stopped offline) ++
         EError "Failed to initialize browser:" (mkExn "net::ERR_CONNECTION_REFUSED")
         :: held_closes (login_stopped offline))%list)) /\
  exited (startup stub_env blank) = Some 1 /\
  listening (startup stub_env blank) = false /\
  forall acts,
    schedule (mkProc (startup stub_env blank) []) acts = mkProc (startup stub_env blank) [].
Proof.
  apply initialize_failure_aborts_startup. vm_compute. reflexivity.
Defined.

(** Scenario 5 of the specification, with the release calls resolving:
    both references end null, both resources were closed, and the process
    exits with code 1 without listening. *)
Example offline_startup_releases_and_exits :
  release_resolves (login_stopped offline) /\
  run (initializeBrowser stub_env) (boot blank) =
    (initialized offline, Rejected (mkExn "net::ERR_CONNECTION_REFUSED")) /\
  browser (initialized offline) = None /\
  persistentPage (initialized offline) = None /\
  held_closes (login_stopped offline) =
    [ECall (PageClose (PageRef 0)); ECall (BrowserClose (BrowserRef 0))] /\
  exited (started offline) = Some 1 /\ listening (started offline) = false.
Proof.
  split; [split; intros; reflexivity|]. vm_compute. repeat split.
Qed.

End Offline.

Section Disconnected.

#[local] Existing Instance disconnected_stub.

(** C6, as stated, fails when the release itself raises.  The login
    stops at the first navigation; in the [catch], [page.close()]
    rejects, so [browser.close()] is never called, neither reference is
    reset, and the caller receives the error of [close], not the one that
    was caught. *)
Lemma rejected_close_keeps_references :
  run (login stub_env) (boot blank) =
    (login_stopped disconnected, Rejected (mkExn "net::ERR_CONNECTION_REFUSED")) /\
  run (initializeBrowser stub_env) (boot blank) =
    (mkState (Some (BrowserRef 0)) (Some (PageRef 0)) ∅ blank
       [ELog "Initializing browser and logging in...";
        ECall (Launch true launch_args);
        ECall (NewPage (BrowserRef 0));
        ECall (SetDefaultNavigationTimeout (PageRef 0) 10000);
        ECall (Goto (PageRef 0) "https://accounts.google.com/" "domcontentloaded");
        EError "Failed to initialize browser:" (mkExn "net::ERR_CONNECTION_REFUSED");
        ECall (PageClose (PageRef 0))]
       false None,
     Rejected (mkExn "Protocol error: Connection closed.")).
Proof. vm_compute. split; reflexivity. Qed.

End Disconnected.

Section Stuck.

#[local] Existing Instance stuck_stub.

(** C8, as stated, fails when [page.close()] rejects: the invocation
    ends in that error after the one call, [browser.close()] is not
    called although the browser is held, and the process does not exit. *)
Lemma rejected_close_stops_shutdown :
  browser (started stuck) = Some (BrowserRef 0) /\
  persistentPage (started stuck) = Some (PageRef 0) /\
  run shutdown (started stuck) =
    (mkState (Some (BrowserRef 0)) (Some (PageRef 0)) ∅
       (mkBrowsing "https://accounts.google.com/" 1)
       (trace (started stuck) ++
        [ELog "Shutting down server..."; ECall (PageClose (PageRef 0))])
       true None,
     Rejected (mkExn "Protocol error: Connection closed.")).
Proof. vm_compute. repeat split. Qed.

End Stuck.

Section HealthyAgain.

#[local] Existing Instance healthy_stub.

Lemma hit_answers_from_cache_witness :
  run (fetchFormHandler (url_request form_url) fresh) fetched =
    (logged (ELog ("Cache hit for " ++ form_url)) fetched,
     Resolved (ok_html "<html>https://example.com/form**</html>")).
Proof.
  apply (hit_answers_from_cache (url_request form_url) form_url).
  - vm_compute. reflexivity.
  - discriminate.
  - split; vm_compute; eauto.
  - vm_compute. reflexivity.
Defined.

Lemma failures_cache_nothing_witness :
  formCache (fst (run (fetchFormHandler (url_request down_url) fresh) served)) =
    formCache served.
Proof.
  apply (failures_cache_nothing (url_request down_url) served _ fetch_error).
  - vm_compute. reflexivity.
  - simpl. lia.
Defined.

Lemma serve_repeats_first_answer_witness :
  (forall k v, formCache fetched !! k = Some v ->
     formCache (fst (serve [url_request other_url; url_request down_url] fetched)) !! k =
       Some v) /\
  run (fetchFormHandler (url_request form_url) fresh)
      (fst (serve [url_request other_url; url_request down_url] fetched)) =
    (logged (ELog ("Cache hit for " ++ form_url))
       (fst (serve [url_request other_url; url_request down_url] fetched)),
     Resolved (ok_html "<html>https://example.com/form**</html>")).
Proof.
  apply (serve_repeats_first_answer (url_request form_url) form_url
           "<html>https://example.com/form**</html>" served fetched).
  - vm_compute. reflexivity.
  - vm_compute. reflexivity.
Defined.

Lemma guard_never_fires_after_startup_witness :
  response_of (Fetch (W := Browsing) (Ret (ok_html "<html>https://example.com/form**</html>")))
    <> Some no_browser.
Proof.
  apply (guard_never_fires_after_startup stub_env blank
           [Arrive (url_request form_url); Resume 0%nat; Resume 0%nat; Resume 0%nat]
           0%nat).
  vm_compute. reflexivity.
Defined.

Lemma earlier_login_is_password_only_witness :
  exists b p,
    browser (fst (run (Earlier.initializeBrowser stub_env) (boot blank))) = Some b /\
    persistentPage (fst (run (Earlier.initializeBrowser stub_env) (boot blank))) = Some p /\
    trace (fst (run (Earlier.initializeBrowser stub_env) (boot blank))) =
      (trace (boot blank) ++ earlier_events stub_env b p)%list /\
    existsb asks_human (earlier_events stub_env b p) = false /\
    existsb submits_password (earlier_events stub_env b p) = true.
Proof.
  apply earlier_login_is_password_only. vm_compute. reflexivity.
Defined.

End HealthyAgain.

Section Optionless.

#[local] Existing Instance optionless_stub.

Lemma missing_option_stops_before_asking_witness :
  run (login stub_env) (boot blank) =
    (mkState (browser (prompted optionless)) (persistentPage (prompted optionless))
       (formCache (prompted optionless))
       (mkBrowsing "https://accounts.google.com/" 1)
       (trace (prompted optionless) ++
        [ELog "Verification prompt detected. Attempting Gmail code verification...";
         ECall (Dollar (PageRef 0) gmailOptionSelector)])
       (listening (prompted optionless)) (exited (prompted optionless)),
     Rejected (mkExn "Gmail verification option not found.")).
Proof.
  apply (missing_option_stops_before_asking stub_env (boot blank)
           (identified optionless) (prompted optionless)
           (stub_document optionless) (PageRef 0)
           (mkBrowsing "https://accounts.google.com/" 1));
    vm_compute; reflexivity.
Defined.

(** Against that site the human is never asked and the process exits
    with code 1. *)
Example optionless_startup_asks_nobody :
  existsb asks_human (trace (started optionless)) = false /\
  exited (started optionless) = Some 1 /\
  listening (started optionless) = false.
Proof. vm_compute. repeat split. Qed.

End Optionless.

Section NoBrowser.

#[local] Existing Instance no_browser_stub.

Lemma launch_failure_has_nothing_to_release_witness :
  run (initializeBrowser stub_env) (boot tt) =
    (mkState None None ∅ tt
       [ELog "Initializing browser and logging in...";
        ECall (Launch true launch_args);
        EError "Failed to initialize browser:"
          (mkExn "Failed to launch the browser process")]
       false None,
     Rejected (mkExn "Failed to launch the browser process")).
Proof.
  apply (launch_failure_has_nothing_to_release stub_env (boot tt) tt); reflexivity.
Defined.

End NoBrowser.

Section NoPage.

#[local] Existing Instance no_page_stub.

Lemma new_page_failure_closes_browser_only_witness :
  run (initializeBrowser stub_env) (boot tt) =
    (mkState None None ∅ tt
       [ELog "Initializing browser and logging in...";
        ECall (Launch true launch_args);
        ECall (NewPage (BrowserRef 0));
        EError "Failed to initialize browser:"
          (mkExn "Protocol error (Target.createTarget)");
        ECall (BrowserClose (BrowserRef 0))]
       false None,
     Rejected (mkExn "Protocol error (Target.createTarget)")).
Proof.
  apply (new_page_failure_closes_browser_only stub_env (boot tt) (BrowserRef 0) tt tt tt);
    reflexivity.
Defined.

End NoPage.
